(** * Version resolution of [scripts/check_pytorch_version.py]

    A shallow embedding of the script that determines the PyTorch version of
    a checkpoint: the lenient parser [parse_pytorch_version], the checkpoint
    inspection [get_torch_version_from_checkpoint], the environment query
    [get_torch_version_from_env], the function [main] and the
    [if __name__ == "__main__"] block around it.

    Modelling conventions.
    - A Python [str] is a [string]; its characters are the code points below
      256.  On that range the class [\d] of the [re] module is exactly
      ['0'..'9'], and [int] reads exactly those digits.  Strings with
      characters from U+0100 on, among them the decimal digits of other
      scripts, are outside the embedding.
    - Python integers are unbounded: [N] for the two version components.
      Conversions between integers and decimal strings are subject to the
      interpreter's limit on the number of digits, at its default of 4300
      (CPython 3.11 and later): beyond it [int] and [str] raise
      [ValueError].
    - The objects found in a loaded checkpoint are values of [pyval];
      dictionaries keep their insertion order (an association list), which
      is the order [dict.values()] iterates in.
    - Exceptions are explicit: a computation returns [Ok v] or [Raise e].
    - The outside world (is [torch] importable, which paths exist, what
      [torch.load] gives) is a read-only record [world]; what the process
      writes is a [console].  [Path.exists] answers or raises [OSError]
      (a name that is too long, a directory that may not be searched);
      [torch.load] fails with exceptions deriving from [Exception] only;
      writing to the console does not fail; what importing [torch] may
      itself write to the console is not part of it; [KeyboardInterrupt] is
      left out. *)

From Stdlib Require Import Bool Ascii String List NArith ZArith Lia.
From Stdlib Require Import Decimal DecimalString DecimalFacts DecimalPos DecimalN.
Import ListNotations.

Local Open Scope string_scope.

(** ** Python values and exceptions *)

Inductive pyexn : Type :=
| ImportError
| TypeError
| ValueError
| OSError
| AttributeError
| KeyError
| UnboundLocalError
| LoadError.          (* whatever [torch.load] raises on a bad artifact *)

Inductive res (A : Type) : Type :=
| Ok (a : A)
| Raise (e : pyexn).
Arguments Ok {A} a.
Arguments Raise {A} e.

Definition res_bind {A B} (r : res A) (k : A -> res B) : res B :=
  match r with
  | Ok a => k a
  | Raise e => Raise e
  end.

Declare Scope res_scope.
Delimit Scope res_scope with res.
Notation "x <- r ;; k" := (res_bind r (fun x => k))
  (at level 61, r at next level, right associativity) : res_scope.

#[warnings="-register-all"]
Inductive pyval : Type :=
| PyNone
| PyBool (b : bool)
| PyInt (z : Z)
| PyStr (s : string)
| PyList (l : list pyval)
| PyDict (d : list (pyval * pyval))
| PyObj.              (* any other object: truthy, not a container *)

(** [bool(v)], as [if v] and [not v] compute it. *)
Definition truthy (v : pyval) : bool :=
  match v with
  | PyNone => false
  | PyBool b => b
  | PyInt z => negb (Z.eqb z 0)
  | PyStr s => negb (String.eqb s "")
  | PyList l => match l with [] => false | _ => true end
  | PyDict d => match d with [] => false | _ => true end
  | PyObj => true
  end.

Definition isinstance_dict (v : pyval) : bool :=
  match v with
  | PyDict _ => true
  | _ => false
  end.

(** [k == key] for a string literal [key]: only a [str] with the same
    characters compares equal. *)
Definition eq_str (key : string) (k : pyval) : bool :=
  match k with
  | PyStr s => String.eqb s key
  | _ => false
  end.

Fixpoint dict_lookup (key : string) (d : list (pyval * pyval)) : option pyval :=
  match d with
  | [] => None
  | (k, v) :: d' => if eq_str key k then Some v else dict_lookup key d'
  end.

Definition dict_has (key : string) (d : list (pyval * pyval)) : bool :=
  match dict_lookup key d with
  | Some _ => true
  | None => false
  end.

(** [needle in s] on strings: [needle] occurs as a substring. *)
Fixpoint substring_of (needle s : string) : bool :=
  String.prefix needle s ||
  match s with
  | EmptyString => false
  | String _ s' => substring_of needle s'
  end.

(** [key in container] for a string literal [key]. *)
Definition py_contains (key : string) (container : pyval) : res bool :=
  match container with
  | PyDict d => Ok (dict_has key d)
  | PyStr s => Ok (substring_of key s)
  | PyList l => Ok (existsb (eq_str key) l)
  | PyNone | PyBool _ | PyInt _ | PyObj => Raise TypeError
  end.

(** [container[key]] for a string literal [key]. *)
Definition py_getitem (container : pyval) (key : string) : res pyval :=
  match container with
  | PyDict d =>
      match dict_lookup key d with
      | Some v => Ok v
      | None => Raise KeyError
      end
  | _ => Raise TypeError
  end.

(** [container.values()], as a list in iteration order. *)
Definition py_values (container : pyval) : res (list pyval) :=
  match container with
  | PyDict d => Ok (map snd d)
  | _ => Raise AttributeError
  end.

(** ** The regular expression [^(\d+)\.(\d+)\.] *)

Definition is_digit (c : ascii) : bool :=
  ((48 <=? N_of_ascii c) && (N_of_ascii c <=? 57))%N.

Definition is_dot (c : ascii) : bool := Ascii.eqb c ".".

Definition snoc (s : string) (c : ascii) : string := s ++ String c EmptyString.

(** Greedy [\d+] with backtracking: [taken] is what the group has consumed
    so far, [k] matches the rest of the pattern.  One digit is mandatory;
    a longer match is tried before the continuation. *)
Fixpoint digits_plus {A} (k : string -> string -> option A)
         (taken s : string) : option A :=
  match s with
  | EmptyString => None
  | String c s' =>
      if is_digit c then
        match digits_plus k (snoc taken c) s' with
        | Some r => Some r
        | None => k (snoc taken c) s'
        end
      else None
  end.

(** A literal dot, then the continuation. *)
Definition lit_dot {A} (k : string -> option A) (s : string) : option A :=
  match s with
  | String c s' => if is_dot c then k s' else None
  | EmptyString => None
  end.

(** [re.match(r'^(\d+)\.(\d+)\.', s)]: the two groups of the match. *)
Definition re_match_version (s : string) : option (string * string) :=
  digits_plus (fun g1 =>
    lit_dot (digits_plus (fun g2 =>
      lit_dot (fun _ => Some (g1, g2))) "")) "" s.

(** ** [int] and [str] on the matched groups *)

Definition digit_val (c : ascii) : N := (N_of_ascii c - 48)%N.

(** [int(s)] for a string of decimal digits. *)
Fixpoint int_of_digits_from (acc : N) (s : string) : N :=
  match s with
  | EmptyString => acc
  | String c s' => int_of_digits_from (10 * acc + digit_val c)%N s'
  end.

Definition int_of_digits (s : string) : N := int_of_digits_from 0 s.

(** [str(n)] for a non-negative integer. *)
Definition str_of_int (n : N) : string := NilZero.string_of_uint (N.to_uint n).

(** [sys.get_int_max_str_digits()] at its default. *)
Definition int_max_str_digits : nat := 4300.

(** [int(s)] on a matched group: a run of more digits than the limit
    allows raises [ValueError]. *)
Definition py_int (s : string) : res N :=
  if (int_max_str_digits <? String.length s)%nat then Raise ValueError
  else Ok (int_of_digits s).

(** An integer formatted by an f-string: the same limit applies to the
    digits that are produced. *)
Definition py_format_int (n : N) : res string :=
  if (int_max_str_digits <? String.length (str_of_int n))%nat then Raise ValueError
  else Ok (str_of_int n).

(** ** [parse_pytorch_version] *)

Definition format_major_minor (major minor : N) : string :=
  str_of_int major ++ "." ++ str_of_int minor.

(** Returns [None] or the string [f"{major}.{minor}"]; [re.match] raises
    [TypeError] on anything that is not a string, [int] raises [ValueError]
    on a group that is too long. *)
Definition parse_pytorch_version (version_str : pyval) : res pyval :=
  if negb (truthy version_str) then Ok PyNone
  else
    match version_str with
    | PyStr s =>
        match re_match_version s with
        | Some (g1, g2) =>
            (major <- py_int g1 ;;
             minor <- py_int g2 ;;
             a <- py_format_int major ;;
             b <- py_format_int minor ;;
             Ok (PyStr (a ++ "." ++ b)))%res
        | None => Ok PyNone
        end
    | _ => Raise TypeError
    end.

(** ** The world the script runs in *)

(** The [torch] module, when it can be imported: its [__version__] and
    what [torch.load(path, map_location='cpu')] does on each path. *)
Record torch_module : Type := {
  torch_version : string;
  torch_load : string -> res pyval
}.

Record world : Type := {
  torch : option torch_module;       (* [None]: [import torch] fails *)
  path_exists : string -> res bool;  (* [Path(p).exists()] *)
  exn_str : pyexn -> string          (* [str(e)], the interpreter's wording *)
}.

Definition import_torch (w : world) : res torch_module :=
  match torch w with
  | Some t => Ok t
  | None => Raise ImportError
  end.

(** ** [get_torch_version_from_env] *)

Definition get_torch_version_from_env (w : world) : pyval :=
  match import_torch w with
  | Ok t => PyStr (torch_version t)
  | Raise _ => PyNone
  end.

(** ** [get_torch_version_from_checkpoint] *)

Local Open Scope res_scope.

(** A block of the function body either executes [return v] ([Some v]) or
    falls through to the next statement ([None]). *)
Definition or_else (block next : res (option pyval)) : res (option pyval) :=
  r <- block ;;
  match r with
  | Some v => Ok (Some v)
  | None => next
  end.

(** [a and b], where only [b] can raise. *)
Definition py_and (a : bool) (b : res bool) : res bool :=
  if a then b else Ok false.

(** [ckpt.get(key, {})] on a dictionary. *)
Definition dict_get_default (key : string) (d : list (pyval * pyval)) : pyval :=
  match dict_lookup key d with
  | Some v => v
  | None => PyDict []
  end.

Definition check_hyper_parameters (ckpt : pyval) : res (option pyval) :=
  present <- py_contains "hyper_parameters" ckpt ;;
  if present then
    hparams <- py_getitem ckpt "hyper_parameters" ;;
    found <- py_contains "torch_version" hparams ;;
    if found then
      v <- py_getitem hparams "torch_version" ;; Ok (Some v)
    else Ok None
  else Ok None.

Definition check_metadata (ckpt : pyval) : res (option pyval) :=
  present <- py_contains "metadata" ckpt ;;
  if present then
    metadata <- py_getitem ckpt "metadata" ;;
    found <- py_and (isinstance_dict metadata)
                    (py_contains "torch_version" metadata) ;;
    if found then
      v <- py_getitem metadata "torch_version" ;; Ok (Some v)
    else Ok None
  else Ok None.

(** The [for callback in ....values()] loop. *)
Fixpoint scan_callbacks (callbacks : list pyval) : res (option pyval) :=
  match callbacks with
  | [] => Ok None
  | callback :: rest =>
      found <- py_and (isinstance_dict callback)
                      (py_contains "torch_version" callback) ;;
      if found then
        v <- py_getitem callback "torch_version" ;; Ok (Some v)
      else scan_callbacks rest
  end.

Definition check_callbacks (ckpt : pyval) : res (option pyval) :=
  present <- py_contains "callbacks" ckpt ;;
  if present then
    match ckpt with
    | PyDict d =>
        callbacks <- py_values (dict_get_default "callbacks" d) ;;
        scan_callbacks callbacks
    | _ => Raise AttributeError
    end
  else Ok None.

(** The body of the [try] statement. *)
Definition inspect_checkpoint (w : world) (checkpoint_path : string) : res pyval :=
  t <- import_torch w ;;
  ckpt <- torch_load t checkpoint_path ;;
  r <- (if isinstance_dict ckpt then
          or_else (check_hyper_parameters ckpt)
            (or_else (check_metadata ckpt) (check_callbacks ckpt))
        else Ok None) ;;
  match r with
  | Some v => Ok v
  | None => Ok (PyStr (torch_version t))
  end.

(** The test of the path comes before the [try]: what it raises leaves
    the function. *)
Definition get_torch_version_from_checkpoint (w : world) (checkpoint_path : string)
  : res pyval :=
  found <- path_exists w checkpoint_path ;;
  if negb found then Ok PyNone
  else
    match inspect_checkpoint w checkpoint_path with
    | Ok v => Ok v
    | Raise _ => Ok PyNone       (* except Exception: return None *)
    end.

Local Close Scope res_scope.

(** ** Console output and process exit *)

Record console : Type := {
  stdout : string;
  stderr : string
}.

Definition empty_console : console := {| stdout := ""; stderr := "" |}.

(** How a call ends: it returns, [sys.exit(code)] unwinds it, or an
    exception does. *)
Inductive outcome (A : Type) : Type :=
| Returned (a : A)
| Exited (code : Z)
| Raised (e : pyexn).
Arguments Returned {A} a.
Arguments Exited {A} code.
Arguments Raised {A} e.

Definition io (A : Type) : Type := console -> outcome A * console.

Definition io_ret {A} (a : A) : io A := fun c => (Returned a, c).

Definition io_bind {A B} (m : io A) (k : A -> io B) : io B :=
  fun c =>
    match m c with
    | (Returned a, c') => k a c'
    | (Exited n, c') => (Exited n, c')
    | (Raised e, c') => (Raised e, c')
    end.

Declare Scope io_scope.
Delimit Scope io_scope with io.
Notation "x <- m ;; k" := (io_bind m (fun x => k))
  (at level 61, m at next level, right associativity) : io_scope.
Notation "m ;; k" := (io_bind m (fun _ => k))
  (at level 61, right associativity) : io_scope.

Definition newline : string := String (ascii_of_nat 10) EmptyString.

(** [sys.stdout.write(s)] *)
Definition write_out (s : string) : io unit :=
  fun c => (Returned tt, {| stdout := stdout c ++ s; stderr := stderr c |}).

(** [print(s)] *)
Definition print_out (s : string) : io unit := write_out (s ++ newline).

(** [print(s, file=sys.stderr)] *)
Definition print_err (s : string) : io unit :=
  fun c => (Returned tt, {| stdout := stdout c; stderr := stderr c ++ s ++ newline |}).

Definition sys_exit {A} (code : Z) : io A := fun c => (Exited code, c).

Definition lift {A} (r : res A) : io A :=
  fun c =>
    match r with
    | Ok a => (Returned a, c)
    | Raise e => (Raised e, c)
    end.

(** [str(v)] as the f-strings of [main] need it.  [main] formats a value
    only once [re.match] has accepted it, so only strings are ever formatted
    (lemma [parsed_is_str] below); the remaining cases are never evaluated. *)
Definition py_str (v : pyval) : string :=
  match v with
  | PyStr s => s
  | PyNone => "None"
  | PyBool true => "True"
  | PyBool false => "False"
  | _ => "<object>"
  end.

(** ** [main] *)

Inductive source_tag : Type := checkpoint | environment.

Definition tag_str (t : source_tag) : string :=
  match t with
  | checkpoint => "checkpoint"
  | environment => "environment"
  end.

(** [sys.argv[1]] when [len(sys.argv) > 1]. *)
Definition checkpoint_path_of (argv : list string) : option string :=
  if (1 <? length argv)%nat then nth_error argv 1 else None.

(** [main] up to the first fallback: the checkpoint step runs when a
    non-empty path was given, and binds [source]; otherwise [version] stays
    [None] and [source] stays unbound ([None] here). *)
Definition checkpoint_step (argv : list string) (w : world)
  : res (pyval * option source_tag) :=
  match checkpoint_path_of argv with
  | Some checkpoint_path =>
      if truthy (PyStr checkpoint_path)
      then (version <- get_torch_version_from_checkpoint w checkpoint_path ;;
            Ok (version, Some checkpoint))%res
      else Ok (PyNone, None)
  | None => Ok (PyNone, None)
  end.

(** The values of [version] and [source] once both fallbacks have run. *)
Definition resolve_version (argv : list string) (w : world)
  : res (pyval * option source_tag) :=
  (r <- checkpoint_step argv w ;;
   let '(version, source) := r in
   if negb (truthy version)
   then Ok (get_torch_version_from_env w, Some environment)
   else Ok (version, source))%res.

Local Open Scope io_scope.

Definition read_source (source : option source_tag) : io string :=
  match source with
  | Some t => io_ret (tag_str t)
  | None => lift (Raise UnboundLocalError)
  end.

Definition main (argv : list string) (w : world) : io string :=
  r <- lift (resolve_version argv w) ;;
  let '(version, source) := r in
  if negb (truthy version) then
    print_err "ERROR: Could not determine PyTorch version." ;;
    print_err "Please ensure PyTorch is installed or provide a valid checkpoint file." ;;
    sys_exit 1
  else
    parsed_version <- lift (parse_pytorch_version version) ;;
    if negb (truthy parsed_version) then
      print_err "ERROR: Could not parse PyTorch version." ;;
      sys_exit 1
    else
      print_out ("PYTORCH_VERSION=" ++ py_str version) ;;
      print_out ("PYTORCH_MAJOR_MINOR=" ++ py_str parsed_version) ;;
      src <- read_source source ;;
      print_out ("SOURCE=" ++ src) ;;
      write_out (py_str parsed_version) ;;
      io_ret (py_str parsed_version).

Local Close Scope io_scope.

(** ** The [if __name__ == "__main__"] block *)

Record process : Type := {
  out : string;         (* everything written to stdout *)
  err : string;         (* everything written to stderr *)
  status : Z            (* exit status *)
}.

Definition run_script (argv : list string) (w : world) : process :=
  match main argv w empty_console with
  | (Returned _, c) => {| out := stdout c; err := stderr c; status := 0 |}
  | (Exited code, c) => {| out := stdout c; err := stderr c; status := code |}
  | (Raised e, c) =>
      (* except Exception as e: print(f"ERROR: {e}", file=sys.stderr); sys.exit(1) *)
      {| out := stdout c;
         err := stderr c ++ "ERROR: " ++ exn_str w e ++ newline;
         status := 1 |}
  end.

(** What a successful run writes to stdout for a resolution
    [(version, major_minor, source)]. *)
Definition success_output (version major_minor : string) (source : source_tag)
  : string :=
  "PYTORCH_VERSION=" ++ version ++ newline ++
  "PYTORCH_MAJOR_MINOR=" ++ major_minor ++ newline ++
  "SOURCE=" ++ tag_str source ++ newline ++
  major_minor.

Definition unresolved_message : string :=
  "ERROR: Could not determine PyTorch version." ++ newline ++
  "Please ensure PyTorch is installed or provide a valid checkpoint file." ++ newline.

Definition unparseable_message : string :=
  "ERROR: Could not parse PyTorch version." ++ newline.

(** ** Shapes of version strings *)

Fixpoint all_digits (s : string) : bool :=
  match s with
  | EmptyString => true
  | String c s' => is_digit c && all_digits s'
  end.

(** A non-empty run of decimal digits: what the spec calls an integer
    component. *)
Definition is_integer (s : string) : Prop :=
  all_digits s = true /\ s <> "".

Definition starts_with_digit (s : string) : bool :=
  match s with
  | EmptyString => false
  | String c _ => is_digit c
  end.

(** The longest run of leading digits, and what follows it. *)
Fixpoint take_digits (s : string) : string :=
  match s with
  | EmptyString => EmptyString
  | String c s' => if is_digit c then String c (take_digits s') else EmptyString
  end.

Fixpoint drop_digits (s : string) : string :=
  match s with
  | EmptyString => EmptyString
  | String c s' => if is_digit c then drop_digits s' else s
  end.

(** The pattern read as a one-pass scanner, without backtracking. *)
Definition scan_version (s : string) : option (string * string) :=
  let g1 := take_digits s in
  match g1, drop_digits s with
  | String _ _, String c1 r1 =>
      if is_dot c1 then
        let g2 := take_digits r1 in
        match g2, drop_digits r1 with
        | String _ _, String c2 _ => if is_dot c2 then Some (g1, g2) else None
        | _, _ => None
        end
      else None
  | _, _ => None
  end.

(** The claim's words: the string starts with two dot-separated integers. *)
Definition starts_with_two_integers (s : string) : Prop :=
  exists a b rest, is_integer a /\ is_integer b /\ s = a ++ "." ++ b ++ rest.

(** The pattern's words: two dot-separated integers and one more dot. *)
Definition has_version_prefix (s : string) : Prop :=
  exists a b rest, is_integer a /\ is_integer b /\ s = a ++ "." ++ b ++ "." ++ rest.

(** ** Well-shaped checkpoint entries *)

(** [hyper_parameters] is absent, or a mapping without [torch_version]. *)
Definition hyper_parameters_silent (d : list (pyval * pyval)) : Prop :=
  dict_lookup "hyper_parameters" d = None \/
  exists h, dict_lookup "hyper_parameters" d = Some (PyDict h) /\
            dict_lookup "torch_version" h = None.

(** [metadata] is absent, or not a mapping, or a mapping without
    [torch_version]. *)
Definition metadata_silent (d : list (pyval * pyval)) : Prop :=
  dict_lookup "metadata" d = None \/
  (exists m, dict_lookup "metadata" d = Some m /\ isinstance_dict m = false) \/
  exists m, dict_lookup "metadata" d = Some (PyDict m) /\
            dict_lookup "torch_version" m = None.

(** ** Two runs on the same inputs *)

(** Two worlds offer the same artifact at [path] and the same runtime:
    [torch] is importable in both or in neither, with the same version and
    the same result of loading [path]; [path] exists in both or in neither.
    Nothing is asked of other paths. *)
Definition same_runtime (path : option string) (w1 w2 : world) : Prop :=
  match torch w1, torch w2 with
  | Some t1, Some t2 =>
      torch_version t1 = torch_version t2 /\
      match path with
      | Some p => torch_load t1 p = torch_load t2 p
      | None => True
      end
  | None, None => True
  | _, _ => False
  end.

Definition same_artifact (path : option string) (w1 w2 : world) : Prop :=
  match path with
  | Some p => path_exists w1 p = path_exists w2 p
  | None => True
  end.

Definition same_inputs (argv1 argv2 : list string) (w1 w2 : world) : Prop :=
  checkpoint_path_of argv1 = checkpoint_path_of argv2 /\
  same_artifact (checkpoint_path_of argv1) w1 w2 /\
  same_runtime (checkpoint_path_of argv1) w1 w2 /\
  (forall e, exn_str w1 e = exn_str w2 e).

(** ** Sample worlds and checkpoints *)

(** A machine with PyTorch 2.8.0 where [model.ckpt] is the only file and
    loading it gives [loaded]. *)
Definition sample_world (loaded : res pyval) : world :=
  {| torch := Some {| torch_version := "2.8.0+cu128";
                      torch_load := fun _ => loaded |};
     path_exists := fun p => Ok (String.eqb p "model.ckpt");
     exn_str := fun _ => "" |}.

(** The same machine without PyTorch. *)
Definition bare_world : world :=
  {| torch := None;
     path_exists := fun p => Ok (String.eqb p "model.ckpt");
     exn_str := fun _ => "" |}.

(** A machine with the same runtime and the same [model.ckpt], and a
    second file next to it. *)
Definition crowded_world (loaded : res pyval) : world :=
  {| torch := Some {| torch_version := "2.8.0+cu128";
                      torch_load := fun p =>
                        if String.eqb p "model.ckpt" then loaded else Ok PyNone |};
     path_exists := fun p =>
       Ok (String.eqb p "model.ckpt" || String.eqb p "other.ckpt");
     exn_str := fun _ => "" |}.

Definition script_name : string := "check_pytorch_version.py".

Definition torch_version_entry (v : pyval) : pyval :=
  PyDict [(PyStr "torch_version", v)].

(** [{'hyper_parameters': {'torch_version': '2.8.0'}}] *)
Definition ckpt_hparams_280 : pyval :=
  PyDict [(PyStr "hyper_parameters", torch_version_entry (PyStr "2.8.0"))].

(** [{'hyper_parameters': {'torch_version': ''}}] *)
Definition ckpt_hparams_empty : pyval :=
  PyDict [(PyStr "hyper_parameters", torch_version_entry (PyStr ""))].

(** [{'hyper_parameters': {'torch_version': None}}] *)
Definition ckpt_hparams_unset : pyval :=
  PyDict [(PyStr "hyper_parameters", torch_version_entry PyNone)].

(** [{'hyper_parameters': None, 'metadata': {'torch_version': '2.7.1'}}] *)
Definition ckpt_none_then_metadata : pyval :=
  PyDict [(PyStr "hyper_parameters", PyNone);
          (PyStr "metadata", torch_version_entry (PyStr "2.7.1"))].

(** [{'state_dict': ..., 'hyper_parameters': None}] *)
Definition ckpt_hparams_none : pyval :=
  PyDict [(PyStr "state_dict", PyObj); (PyStr "hyper_parameters", PyNone)].

(** [{'state_dict': ...}] *)
Definition ckpt_plain : pyval :=
  PyDict [(PyStr "state_dict", PyObj)].

(** ** Predicates and samples for the further properties *)

(** A decimal numeral without a superfluous leading zero. *)
Definition no_leading_zero (s : string) : bool :=
  match s with
  | String c (String _ _) => negb (Ascii.eqb c "0")
  | _ => true
  end.

(** The text after the last line break of [s]: what a shell keeps of the
    output with [tail -n 1]. *)
Fixpoint last_line_from (acc s : string) : string :=
  match s with
  | EmptyString => acc
  | String c s' =>
      if Ascii.eqb c (ascii_of_nat 10) then last_line_from "" s'
      else last_line_from (snoc acc c) s'
  end.

Definition last_line (s : string) : string := last_line_from "" s.

(** A [callbacks] value the loop passes over: not a mapping, or a mapping
    without [torch_version]. *)
Definition callback_silent (callback : pyval) : bool :=
  match callback with
  | PyDict c => negb (dict_has "torch_version" c)
  | _ => true
  end.

(** The values of [hyper_parameters] on which the two statements
    ['torch_version' in hparams] and [hparams['torch_version']] end in an
    exception: a value that is no container, a string that has
    [torch_version] as a substring, a list that has it as an element. *)
Definition hparams_raises (hparams : pyval) : bool :=
  match hparams with
  | PyDict _ => false
  | PyStr s => substring_of "torch_version" s
  | PyList l => existsb (eq_str "torch_version") l
  | PyNone | PyBool _ | PyInt _ | PyObj => true
  end.

(** [{'hyper_parameters': {'torch_version': 2}}] *)
Definition ckpt_hparams_number : pyval :=
  PyDict [(PyStr "hyper_parameters", torch_version_entry (PyInt 2))].

(** [{'hyper_parameters': {'torch_version': '2.8'}}] *)
Definition ckpt_hparams_two_components : pyval :=
  PyDict [(PyStr "hyper_parameters", torch_version_entry (PyStr "2.8"))].

(** [{'hyper_parameters': 'torch_version: 2.8.0',
      'metadata': {'torch_version': '2.7.1'}}] *)
Definition ckpt_hparams_text : list (pyval * pyval) :=
  [(PyStr "hyper_parameters", PyStr "torch_version: 2.8.0");
   (PyStr "metadata", torch_version_entry (PyStr "2.7.1"))].

(** All three places filled, each with another version. *)
Definition ckpt_all_places : list (pyval * pyval) :=
  [(PyStr "callbacks",
     PyDict [(PyStr "ModelCheckpoint", torch_version_entry (PyStr "1.13.1"))]);
   (PyStr "metadata", torch_version_entry (PyStr "2.7.1"));
   (PyStr "hyper_parameters", torch_version_entry (PyStr "2.8.0"))].

(** [metadata] and [callbacks] filled, [hyper_parameters] a mapping
    without a version. *)
Definition ckpt_metadata_and_callbacks : list (pyval * pyval) :=
  [(PyStr "callbacks",
     PyDict [(PyStr "ModelCheckpoint", torch_version_entry (PyStr "1.13.1"))]);
   (PyStr "metadata", torch_version_entry (PyStr "2.7.1"));
   (PyStr "hyper_parameters", PyDict [(PyStr "lr", PyObj)])].

(** Only [callbacks], whose third entry is the first with a version. *)
Definition ckpt_callbacks_only : list (pyval * pyval) :=
  [(PyStr "state_dict", PyObj);
   (PyStr "callbacks",
     PyDict [(PyStr "EarlyStopping", PyDict [(PyStr "patience", PyInt 3)]);
             (PyStr "Timer", PyNone);
             (PyStr "ModelCheckpoint", torch_version_entry (PyStr "1.13.1"));
             (PyStr "Other", torch_version_entry (PyStr "2.0.0"))])].

(** ** Limits, lines and samples for the error paths *)

(** A group that [int] accepts. *)
Definition within_limit (s : string) : Prop :=
  (String.length s <= int_max_str_digits)%nat.

(** A version prefix whose two integers [int] accepts. *)
Definition has_short_version_prefix (s : string) : Prop :=
  exists a b rest,
    is_integer a /\ is_integer b /\ within_limit a /\ within_limit b /\
    s = a ++ "." ++ b ++ "." ++ rest.

(** [s] holds no line break. *)
Fixpoint no_break (s : string) : bool :=
  match s with
  | EmptyString => true
  | String c s' => negb (Ascii.eqb c (ascii_of_nat 10)) && no_break s'
  end.

(** The lines of [s], as [s.split('\n')] gives them. *)
Fixpoint lines_from (acc s : string) : list string :=
  match s with
  | EmptyString => [acc]
  | String c s' =>
      if Ascii.eqb c (ascii_of_nat 10) then acc :: lines_from "" s'
      else lines_from (snoc acc c) s'
  end.

Definition lines (s : string) : list string := lines_from "" s.

Fixpoint repeat_char (c : ascii) (n : nat) : string :=
  match n with
  | O => EmptyString
  | S n' => String c (repeat_char c n')
  end.

(** A file name of 300 characters, longer than a file system takes. *)
Definition long_name : string := repeat_char "a" 300.

(** The machine of [sample_world], where a name of more than 255
    characters makes [Path.exists] raise (ENAMETOOLONG). *)
Definition long_name_world (loaded : res pyval) : world :=
  {| torch := Some {| torch_version := "2.8.0+cu128";
                      torch_load := fun _ => loaded |};
     path_exists := fun p =>
       if (255 <? String.length p)%nat then Raise OSError
       else Ok (String.eqb p "model.ckpt");
     exn_str := fun e =>
       match e with
       | OSError => "[Errno 36] File name too long: '" ++ long_name ++ "'"
       | _ => ""
       end |}.

(** A version string whose major component has 4301 digits. *)
Definition oversized_version : string := repeat_char "0" 4301 ++ ".0.0".

(** [{'hyper_parameters': {'torch_version': '000...0.0.0'}}] *)
Definition ckpt_hparams_oversized : pyval :=
  PyDict [(PyStr "hyper_parameters", torch_version_entry (PyStr oversized_version))].

(** A raw version with a line break in it. *)
Definition two_line_version : string :=
  "2.8.0" ++ newline ++ "SOURCE=forged".

(** [{'hyper_parameters': {'torch_version': '2.8.0\nSOURCE=forged'}}] *)
Definition ckpt_hparams_two_lines : pyval :=
  PyDict [(PyStr "hyper_parameters", torch_version_entry (PyStr two_line_version))].

(** * Properties *)

(** ** Sample runs of the parser *)

Example parse_three_components :
  parse_pytorch_version (PyStr "2.8.0") = Ok (PyStr "2.8").
Proof. reflexivity. Qed.

Example parse_build_tag :
  parse_pytorch_version (PyStr "2.0.0+cu118") = Ok (PyStr "2.0").
Proof. reflexivity. Qed.

Example parse_long_components :
  parse_pytorch_version (PyStr "12.345.6789") = Ok (PyStr "12.345").
Proof. reflexivity. Qed.

Example parse_release_candidate :
  parse_pytorch_version (PyStr "2.8rc1") = Ok PyNone.
Proof. reflexivity. Qed.

Example parse_empty : parse_pytorch_version (PyStr "") = Ok PyNone.
Proof. reflexivity. Qed.

Example parse_none : parse_pytorch_version PyNone = Ok PyNone.
Proof. reflexivity. Qed.

Example parse_number : parse_pytorch_version (PyInt 2) = Raise TypeError.
Proof. reflexivity. Qed.

Example match_groups :
  re_match_version "12.345.6789" = Some ("12", "345").
Proof. reflexivity. Qed.

(** ** Strings *)

Lemma app_assoc_str (a b c : string) : (a ++ b) ++ c = a ++ b ++ c.
Proof. induction a as [|x a IH]; simpl; [reflexivity | now rewrite IH]. Qed.

Lemma snoc_app (t : string) (c : ascii) (a : string) :
  snoc t c ++ a = t ++ String c a.
Proof. unfold snoc. now rewrite app_assoc_str. Qed.

Lemma dot_not_digit (c : ascii) : is_dot c = true -> is_digit c = false.
Proof.
  unfold is_dot. intros H. apply Ascii.eqb_eq in H. subst c. reflexivity.
Qed.

Lemma take_drop_digits (s : string) : take_digits s ++ drop_digits s = s.
Proof.
  induction s as [|c s IH]; simpl; [reflexivity|].
  destruct (is_digit c); simpl; [now rewrite IH | reflexivity].
Qed.

Lemma take_digits_all (s : string) : all_digits (take_digits s) = true.
Proof.
  induction s as [|c s IH]; simpl; [reflexivity|].
  destruct (is_digit c) eqn:E; simpl; [now rewrite E | reflexivity].
Qed.

Lemma drop_digits_start (s : string) : starts_with_digit (drop_digits s) = false.
Proof.
  induction s as [|c s IH]; simpl; [reflexivity|].
  destruct (is_digit c) eqn:E; simpl; [exact IH | exact E].
Qed.

(** A run of digits followed by a non-digit is split where the run ends. *)
Lemma take_digits_app (a r : string) :
  all_digits a = true -> starts_with_digit r = false ->
  take_digits (a ++ r) = a /\ drop_digits (a ++ r) = r.
Proof.
  intros Ha Hr. induction a as [|c a IH]; simpl in *.
  - destruct r as [|c r]; simpl in *; [now split|]. now rewrite Hr.
  - apply andb_true_iff in Ha. destruct Ha as [Hc Ha]. rewrite Hc.
    destruct (IH Ha) as [-> ->]. now split.
Qed.

(** ** The backtracking matcher is the one-pass scanner *)

Section Backtracking.
Context {A : Type}.
Variable k : string -> string -> option A.

(** The continuation cannot succeed in front of a digit: in the pattern a
    dot comes next. *)
Hypothesis k_needs_non_digit :
  forall g s, starts_with_digit s = true -> k g s = None.

Lemma digits_plus_no_digit (taken s : string) :
  starts_with_digit s = false -> digits_plus k taken s = None.
Proof.
  destruct s as [|c s]; simpl; [reflexivity|]. now intros ->.
Qed.

(** Backtracking never helps: the group is the whole run of digits. *)
Lemma digits_plus_run (a : string) :
  forall taken r,
    all_digits a = true -> a <> "" -> starts_with_digit r = false ->
    digits_plus k taken (a ++ r) = k (taken ++ a) r.
Proof.
  induction a as [|c a IH]; intros taken r Ha Hne Hr; [congruence|].
  simpl in Ha. apply andb_true_iff in Ha. destruct Ha as [Hc Ha].
  simpl. rewrite Hc.
  destruct a as [|c' a].
  - simpl. rewrite (digits_plus_no_digit _ _ Hr). reflexivity.
  - rewrite IH by (auto; discriminate).
    rewrite snoc_app.
    destruct (k (taken ++ String c (String c' a)) r) eqn:E; [reflexivity|].
    apply k_needs_non_digit. simpl.
    simpl in Ha. now apply andb_true_iff in Ha.
Qed.

Lemma digits_plus_scan (s : string) :
  digits_plus k "" s =
  match take_digits s with
  | EmptyString => None
  | String _ _ => k (take_digits s) (drop_digits s)
  end.
Proof.
  rewrite <- (take_drop_digits s) at 1.
  destruct (take_digits s) as [|c a] eqn:E.
  - simpl. apply digits_plus_no_digit. apply drop_digits_start.
  - rewrite digits_plus_run.
    + reflexivity.
    + rewrite <- E. apply take_digits_all.
    + discriminate.
    + apply drop_digits_start.
Qed.
End Backtracking.

Lemma lit_dot_needs_non_digit {A} (k : string -> option A) (s : string) :
  starts_with_digit s = true -> lit_dot k s = None.
Proof.
  destruct s as [|c s]; simpl; [discriminate|]. intros Hc.
  destruct (is_dot c) eqn:E; [|reflexivity].
  apply dot_not_digit in E. congruence.
Qed.

Theorem re_match_version_scan (s : string) :
  re_match_version s = scan_version s.
Proof.
  unfold re_match_version, scan_version.
  rewrite digits_plus_scan by (intros; apply lit_dot_needs_non_digit; assumption).
  destruct (take_digits s) as [|c a]; [reflexivity|].
  destruct (drop_digits s) as [|c1 r1]; [reflexivity|].
  simpl lit_dot. destruct (is_dot c1); [|reflexivity].
  rewrite digits_plus_scan by (intros; apply lit_dot_needs_non_digit; assumption).
  destruct (take_digits r1) as [|c2 b]; [reflexivity|].
  destruct (drop_digits r1) as [|c3 r3]; reflexivity.
Qed.

Lemma is_dot_eq (c : ascii) : is_dot c = true -> c = "."%char.
Proof. unfold is_dot. apply Ascii.eqb_eq. Qed.

Lemma scan_version_prefix (a b rest : string) :
  is_integer a -> is_integer b ->
  scan_version (a ++ "." ++ b ++ "." ++ rest) = Some (a, b).
Proof.
  intros [Ha Hna] [Hb Hnb]. unfold scan_version.
  destruct (take_digits_app a ("." ++ b ++ "." ++ rest) Ha eq_refl) as [E1 E2].
  destruct (take_digits_app b ("." ++ rest) Hb eq_refl) as [E3 E4].
  rewrite E1, E2.
  destruct a as [|c a]; [congruence|].
  change ("." ++ b ++ "." ++ rest) with (String "." (b ++ "." ++ rest)).
  cbv beta iota zeta. change (is_dot ".") with true. cbv iota.
  rewrite E3, E4.
  destruct b as [|c' b]; [congruence|]. reflexivity.
Qed.

Lemma scan_version_inv (s a b : string) :
  scan_version s = Some (a, b) ->
  is_integer a /\ is_integer b /\ exists rest, s = a ++ "." ++ b ++ "." ++ rest.
Proof.
  unfold scan_version. intros H.
  pose proof (take_drop_digits s) as Hs.
  pose proof (take_digits_all s) as Hd.
  destruct (take_digits s) as [|c g1] eqn:E1; [discriminate|].
  destruct (drop_digits s) as [|c1 r1] eqn:E2; [discriminate|].
  destruct (is_dot c1) eqn:Ec1; [|discriminate].
  pose proof (take_drop_digits r1) as Hs'.
  pose proof (take_digits_all r1) as Hd'.
  destruct (take_digits r1) as [|c' g2] eqn:E3; [discriminate|].
  destruct (drop_digits r1) as [|c2 r2] eqn:E4; [discriminate|].
  destruct (is_dot c2) eqn:Ec2; [|discriminate].
  injection H as <- <-.
  apply is_dot_eq in Ec1, Ec2. subst c1 c2.
  repeat split; try assumption; try discriminate.
  exists r2. rewrite <- Hs. rewrite <- Hs'. reflexivity.
Qed.

(** The pattern matches exactly the strings with a version prefix, and its
    groups are the two integers of the prefix. *)
Lemma re_match_version_prefix (a b rest : string) :
  is_integer a -> is_integer b ->
  re_match_version (a ++ "." ++ b ++ "." ++ rest) = Some (a, b).
Proof. intros. rewrite re_match_version_scan. now apply scan_version_prefix. Qed.

Lemma re_match_version_none (s : string) :
  re_match_version s = None <-> ~ has_version_prefix s.
Proof.
  split.
  - intros H (a & b & rest & Ha & Hb & ->).
    rewrite re_match_version_prefix in H by assumption. discriminate.
  - intros H. destruct (re_match_version s) as [[a b]|] eqn:E; [|reflexivity].
    exfalso. apply H. rewrite re_match_version_scan in E.
    apply scan_version_inv in E. destruct E as (Ha & Hb & rest & ->).
    now exists a, b, rest.
Qed.

(** ** Decimal conversions *)

Lemma int_of_digits_from_uint (d : uint) (acc : N) :
  int_of_digits_from acc (NilEmpty.string_of_uint d) =
  (Unsigned.of_lu (rev d) + acc * 10 ^ Unsigned.usize d)%N.
Proof.
  revert acc.
  induction d; intros acc; simpl Unsigned.usize; simpl NilEmpty.string_of_uint;
    [ simpl; lia | .. ];
    cbn [int_of_digits_from]; rewrite IHd;
    set (L := Unsigned.of_lu (rev d));
    unfold rev; simpl revapp; rewrite Unsigned.of_lu_revapp; fold L;
    rewrite N.pow_succ_r'; simpl Unsigned.of_lu;
    unfold digit_val; simpl N_of_ascii; lia.
Qed.

Lemma int_of_digits_uint (d : uint) :
  int_of_digits (NilEmpty.string_of_uint d) = N.of_uint d.
Proof.
  unfold int_of_digits. rewrite int_of_digits_from_uint.
  unfold N.of_uint. rewrite Unsigned.of_uint_alt. lia.
Qed.

Lemma to_uint_not_nil (n : N) : N.to_uint n <> Nil.
Proof.
  intros H. pose proof (DecimalN.Unsigned.of_to n) as Hn.
  rewrite H in Hn. simpl in Hn. subst n. discriminate.
Qed.

Lemma str_of_int_unfold (n : N) :
  str_of_int n = NilEmpty.string_of_uint (N.to_uint n).
Proof.
  unfold str_of_int, NilZero.string_of_uint.
  pose proof (to_uint_not_nil n). destruct (N.to_uint n); congruence.
Qed.

(** [int(str(n)) == n] *)
Lemma int_of_str_of_int (n : N) : int_of_digits (str_of_int n) = n.
Proof.
  rewrite str_of_int_unfold, int_of_digits_uint.
  apply DecimalN.Unsigned.of_to.
Qed.

Lemma string_of_uint_digits (d : uint) :
  all_digits (NilEmpty.string_of_uint d) = true.
Proof. induction d; simpl; auto. Qed.

Lemma str_of_int_is_integer (n : N) : is_integer (str_of_int n).
Proof.
  split.
  - rewrite str_of_int_unfold. apply string_of_uint_digits.
  - rewrite str_of_int_unfold. pose proof (to_uint_not_nil n).
    destruct (N.to_uint n); simpl; congruence.
Qed.

Lemma format_major_minor_truthy (x y : N) :
  truthy (PyStr (format_major_minor x y)) = true.
Proof.
  unfold format_major_minor. destruct (str_of_int_is_integer x) as [_ H].
  destruct (str_of_int x); [congruence | reflexivity].
Qed.


(** ** The limit on decimal conversions *)

Lemma digits_uint (a : string) :
  all_digits a = true -> exists d, a = NilEmpty.string_of_uint d.
Proof.
  induction a as [|c a IH]; [now exists Nil|].
  cbn [all_digits]. intros H. apply andb_true_iff in H. destruct H as [Hc Ha].
  destruct (IH Ha) as [d ->].
  destruct c as [[] [] [] [] [] [] [] []]; try discriminate Hc;
    first [ now exists (D0 d) | now exists (D1 d) | now exists (D2 d)
          | now exists (D3 d) | now exists (D4 d) | now exists (D5 d)
          | now exists (D6 d) | now exists (D7 d) | now exists (D8 d)
          | now exists (D9 d) ].
Qed.

Lemma string_of_uint_length (d : uint) :
  String.length (NilEmpty.string_of_uint d) = nb_digits d.
Proof. induction d; simpl; congruence. Qed.

Lemma str_of_int_of_uint (d : uint) :
  str_of_int (N.of_uint d) = NilEmpty.string_of_uint (unorm d).
Proof. rewrite str_of_int_unfold. now rewrite DecimalN.Unsigned.to_of. Qed.

(** [str(int(a))] is never longer than [a]. *)
Lemma str_of_int_of_digits_length (a : string) :
  is_integer a ->
  (String.length (str_of_int (int_of_digits a)) <= String.length a)%nat.
Proof.
  intros [Ha Hn]. destruct (digits_uint a Ha) as [d ->].
  rewrite int_of_digits_uint, str_of_int_of_uint, !string_of_uint_length.
  apply nb_digits_unorm. intros ->. now apply Hn.
Qed.

Lemma no_leading_zero_normal (d : uint) :
  d <> Nil -> no_leading_zero (NilEmpty.string_of_uint d) = true -> unorm d = d.
Proof.
  intros Hn H. destruct d as [|d| | | | | | | | |]; try reflexivity; [congruence|].
  destruct d; try reflexivity; discriminate.
Qed.

(** [str(int(a)) == a] for a numeral without superfluous leading zero. *)
Lemma str_of_int_of_digits_canonical (a : string) :
  is_integer a -> no_leading_zero a = true -> str_of_int (int_of_digits a) = a.
Proof.
  intros [Ha Hn] Hz. destruct (digits_uint a Ha) as [d ->].
  rewrite int_of_digits_uint, str_of_int_of_uint.
  rewrite no_leading_zero_normal; [reflexivity | | assumption].
  intros ->. now apply Hn.
Qed.

Lemma py_int_within (a : string) :
  within_limit a -> py_int a = Ok (int_of_digits a).
Proof.
  unfold within_limit, py_int. intros H.
  destruct (Nat.ltb_spec int_max_str_digits (String.length a)); [lia | reflexivity].
Qed.

Lemma py_int_beyond (a : string) :
  ~ within_limit a -> py_int a = Raise ValueError.
Proof.
  unfold within_limit, py_int. intros H.
  destruct (Nat.ltb_spec int_max_str_digits (String.length a)); [reflexivity | lia].
Qed.

Lemma py_int_inv (a : string) (n : N) :
  py_int a = Ok n -> within_limit a /\ n = int_of_digits a.
Proof.
  unfold within_limit, py_int.
  destruct (Nat.ltb_spec int_max_str_digits (String.length a)); [discriminate|].
  intros [= <-]. now split.
Qed.

Lemma py_int_raises (a : string) (e : pyexn) :
  py_int a = Raise e -> e = ValueError /\ ~ within_limit a.
Proof.
  unfold within_limit, py_int.
  destruct (Nat.ltb_spec int_max_str_digits (String.length a)); [|discriminate].
  intros [= <-]. split; [reflexivity | lia].
Qed.

(** What [int] has read, the f-string can print. *)
Lemma py_format_int_of_digits (a : string) :
  is_integer a -> within_limit a ->
  py_format_int (int_of_digits a) = Ok (str_of_int (int_of_digits a)).
Proof.
  intros Ha Hl. unfold py_format_int.
  pose proof (str_of_int_of_digits_length a Ha) as H. unfold within_limit in Hl.
  destruct (Nat.ltb_spec int_max_str_digits
              (String.length (str_of_int (int_of_digits a)))); [lia | reflexivity].
Qed.

Lemma within_limit_dec (a : string) : within_limit a \/ ~ within_limit a.
Proof. unfold within_limit. lia. Qed.

Lemma str_of_int_within (a : string) :
  is_integer a -> within_limit a -> within_limit (str_of_int (int_of_digits a)).
Proof.
  unfold within_limit. intros Ha Hl.
  pose proof (str_of_int_of_digits_length a Ha). lia.
Qed.

(** ** [parse_pytorch_version] *)

Lemma is_integer_app_truthy (a rest : string) :
  is_integer a -> truthy (PyStr (a ++ rest)) = true.
Proof. intros [_ H]. destruct a; [congruence | reflexivity]. Qed.

Lemma no_version_prefix_empty : ~ has_version_prefix "".
Proof.
  intros (a & b & rest & [_ Ha] & _ & H). destruct a; [congruence | discriminate].
Qed.

(** What the parser does once the pattern has matched. *)
Lemma convert_groups (g1 g2 : string) :
  is_integer g1 -> is_integer g2 ->
  (major <- py_int g1 ;;
   minor <- py_int g2 ;;
   a <- py_format_int major ;;
   b <- py_format_int minor ;;
   Ok (PyStr (a ++ "." ++ b)))%res =
  if (int_max_str_digits <? String.length g1)%nat then Raise ValueError
  else if (int_max_str_digits <? String.length g2)%nat then Raise ValueError
  else Ok (PyStr (format_major_minor (int_of_digits g1) (int_of_digits g2))).
Proof.
  intros H1 H2.
  destruct (Nat.ltb_spec int_max_str_digits (String.length g1)) as [L1|L1].
  - rewrite py_int_beyond by (unfold within_limit; lia). reflexivity.
  - rewrite (py_int_within g1) by exact L1. cbn [res_bind].
    destruct (Nat.ltb_spec int_max_str_digits (String.length g2)) as [L2|L2].
    + rewrite py_int_beyond by (unfold within_limit; lia). reflexivity.
    + rewrite (py_int_within g2) by exact L2. cbn [res_bind].
      rewrite !py_format_int_of_digits by assumption. reflexivity.
Qed.

Lemma re_match_version_groups (s g1 g2 : string) :
  re_match_version s = Some (g1, g2) -> is_integer g1 /\ is_integer g2.
Proof.
  rewrite re_match_version_scan. intros H.
  destruct (scan_version_inv _ _ _ H) as (H1 & H2 & _). now split.
Qed.

(** The parser on a string, with the conversions resolved. *)
Lemma parse_str (s : string) :
  parse_pytorch_version (PyStr s) =
  if negb (truthy (PyStr s)) then Ok PyNone
  else match re_match_version s with
       | Some (g1, g2) =>
           if (int_max_str_digits <? String.length g1)%nat then Raise ValueError
           else if (int_max_str_digits <? String.length g2)%nat then Raise ValueError
           else Ok (PyStr (format_major_minor (int_of_digits g1) (int_of_digits g2)))
       | None => Ok PyNone
       end.
Proof.
  unfold parse_pytorch_version.
  destruct (negb (truthy (PyStr s))); [reflexivity|].
  destruct (re_match_version s) as [[g1 g2]|] eqn:E; [|reflexivity].
  destruct (re_match_version_groups _ _ _ E). now apply convert_groups.
Qed.

(** On a string with a version prefix whose integers [int] accepts, the
    parser answers with the two integers, each read by [int] and printed by
    [str]. *)
Lemma parse_version_prefix (a b rest : string) :
  is_integer a -> is_integer b -> within_limit a -> within_limit b ->
  parse_pytorch_version (PyStr (a ++ "." ++ b ++ "." ++ rest)) =
  Ok (PyStr (format_major_minor (int_of_digits a) (int_of_digits b))).
Proof.
  intros Ha Hb La Lb. rewrite parse_str.
  rewrite is_integer_app_truthy by assumption. cbn [negb].
  rewrite re_match_version_prefix by assumption.
  unfold within_limit in La, Lb.
  destruct (Nat.ltb_spec int_max_str_digits (String.length a)); [lia|].
  destruct (Nat.ltb_spec int_max_str_digits (String.length b)); [lia|].
  reflexivity.
Qed.

(** With an integer that is too long the conversion raises. *)
Lemma parse_version_prefix_beyond (a b rest : string) :
  is_integer a -> is_integer b -> ~ (within_limit a /\ within_limit b) ->
  parse_pytorch_version (PyStr (a ++ "." ++ b ++ "." ++ rest)) = Raise ValueError.
Proof.
  intros Ha Hb L. rewrite parse_str.
  rewrite is_integer_app_truthy by assumption. cbn [negb].
  rewrite re_match_version_prefix by assumption.
  unfold within_limit in L.
  destruct (Nat.ltb_spec int_max_str_digits (String.length a)); [reflexivity|].
  destruct (Nat.ltb_spec int_max_str_digits (String.length b)); [reflexivity|].
  lia.
Qed.

Lemma parse_none_iff (s : string) :
  parse_pytorch_version (PyStr s) = Ok PyNone <-> ~ has_version_prefix s.
Proof.
  rewrite parse_str.
  destruct (truthy (PyStr s)) eqn:T; cbn [negb].
  - rewrite <- re_match_version_none.
    destruct (re_match_version s) as [[g1 g2]|]; [|tauto].
    destruct (int_max_str_digits <? String.length g1)%nat;
      [split; discriminate|].
    destruct (int_max_str_digits <? String.length g2)%nat;
      split; discriminate.
  - split; [|reflexivity]. intros _.
    simpl in T. apply negb_false_iff, String.eqb_eq in T. subst s.
    apply no_version_prefix_empty.
Qed.

Lemma parse_ok_inv (v : pyval) (mm : string) :
  parse_pytorch_version v = Ok (PyStr mm) ->
  exists s g1 g2,
    v = PyStr s /\ re_match_version s = Some (g1, g2) /\
    within_limit g1 /\ within_limit g2 /\
    mm = format_major_minor (int_of_digits g1) (int_of_digits g2).
Proof.
  destruct v; try (unfold parse_pytorch_version;
                   match goal with |- context [truthy ?x] => destruct (truthy x) end;
                   discriminate).
  rewrite parse_str.
  destruct (negb (truthy (PyStr s))); [discriminate|].
  destruct (re_match_version s) as [[g1 g2]|] eqn:E; [|discriminate].
  destruct (Nat.ltb_spec int_max_str_digits (String.length g1)); [discriminate|].
  destruct (Nat.ltb_spec int_max_str_digits (String.length g2)); [discriminate|].
  intros [= <-]. exists s, g1, g2. now repeat split.
Qed.

(** Whatever [main] goes on to print has been accepted by [re.match], so it
    is a string. *)
Lemma parsed_is_str (v parsed : pyval) :
  parse_pytorch_version v = Ok parsed -> truthy parsed = true ->
  exists s mm, v = PyStr s /\ parsed = PyStr mm.
Proof.
  destruct v; try (unfold parse_pytorch_version;
                   match goal with |- context [truthy ?x] => destruct (truthy x) end;
                   try discriminate; intros [= <-]; discriminate).
  rewrite parse_str.
  destruct (negb (truthy (PyStr s))); [intros [= <-]; discriminate|].
  destruct (re_match_version s) as [[g1 g2]|]; [|intros [= <-]; discriminate].
  destruct (int_max_str_digits <? String.length g1)%nat; [discriminate|].
  destruct (int_max_str_digits <? String.length g2)%nat; [discriminate|].
  intros [= <-] _. eauto.
Qed.

Lemma parse_ok_truthy (v : pyval) (mm : string) :
  parse_pytorch_version v = Ok (PyStr mm) ->
  truthy v = true /\ truthy (PyStr mm) = true.
Proof.
  intros H. destruct (parse_ok_inv _ _ H) as (s & g1 & g2 & -> & _ & _ & _ & ->).
  split; [|apply format_major_minor_truthy].
  unfold parse_pytorch_version in H.
  destruct (truthy (PyStr s)); [reflexivity | discriminate].
Qed.

Lemma parse_ok_shape (v parsed : pyval) :
  parse_pytorch_version v = Ok parsed ->
  parsed = PyNone \/ exists s mm, v = PyStr s /\ parsed = PyStr mm.
Proof.
  intros H. destruct (truthy parsed) eqn:T.
  - right. now apply parsed_is_str.
  - left. revert H T. unfold parse_pytorch_version.
    destruct (negb (truthy v)); [now intros [= <-]|].
    destruct v; try discriminate.
    destruct (re_match_version s) as [[g1 g2]|]; [|now intros [= <-]].
    destruct (py_int g1) as [x|]; [|discriminate]. cbn [res_bind].
    destruct (py_int g2) as [y|]; [|discriminate]. cbn [res_bind].
    destruct (py_format_int x) as [a|] eqn:Ea; [|discriminate]. cbn [res_bind].
    destruct (py_format_int y) as [b|]; [|discriminate]. cbn [res_bind].
    intros [= <-] T. exfalso.
    unfold py_format_int in Ea.
    destruct (int_max_str_digits <? String.length (str_of_int x))%nat;
      [discriminate|].
    injection Ea as <-. destruct (str_of_int_is_integer x) as [_ Hx].
    destruct (str_of_int x); [congruence | discriminate].
Qed.

Lemma parse_raises (v : pyval) (e : pyexn) :
  parse_pytorch_version v = Raise e -> e = TypeError \/ e = ValueError.
Proof.
  unfold parse_pytorch_version.
  destruct (negb (truthy v)); [discriminate|].
  destruct v; try (intros [= <-]; now left).
  destruct (re_match_version s) as [[g1 g2]|]; [|discriminate].
  destruct (py_int g1) as [x|e1] eqn:E1; cbn [res_bind].
  - destruct (py_int g2) as [y|e2] eqn:E2; cbn [res_bind].
    + unfold py_format_int.
      destruct (int_max_str_digits <? String.length (str_of_int x))%nat;
        cbn [res_bind]; [intros [= <-]; now right|].
      destruct (int_max_str_digits <? String.length (str_of_int y))%nat;
        cbn [res_bind]; [intros [= <-]; now right | discriminate].
    + intros [= <-]. right. now destruct (py_int_raises _ _ E2).
  - intros [= <-]. right. now destruct (py_int_raises _ _ E1).
Qed.

Lemma parse_non_string (v : pyval) :
  truthy v = true -> (forall s, v <> PyStr s) ->
  parse_pytorch_version v = Raise TypeError.
Proof.
  intros T H. unfold parse_pytorch_version. rewrite T. cbn [negb].
  destruct v; try reflexivity. now destruct (H s).
Qed.

Lemma parse_prefix_ok_inv (a b rest r : string) :
  is_integer a -> is_integer b ->
  parse_pytorch_version (PyStr (a ++ "." ++ b ++ "." ++ rest)) = Ok (PyStr r) ->
  within_limit a /\ within_limit b /\
  r = format_major_minor (int_of_digits a) (int_of_digits b).
Proof.
  intros Ha Hb H.
  destruct (within_limit_dec a) as [La|La];
    [|rewrite parse_version_prefix_beyond in H by tauto; discriminate].
  destruct (within_limit_dec b) as [Lb|Lb];
    [|rewrite parse_version_prefix_beyond in H by tauto; discriminate].
  rewrite parse_version_prefix in H by assumption.
  injection H as <-. now repeat split.
Qed.

(** C1, as the claim words it, fails: ["2.8"] starts with two dot-separated
    integers and is rejected all the same. *)
Lemma two_components_are_rejected :
  starts_with_two_integers "2.8" /\
  parse_pytorch_version (PyStr "2.8") = Ok PyNone.
Proof.
  split; [|reflexivity].
  exists "2", "8", "". repeat split; discriminate.
Qed.

(** C1 (amended): on strings of characters below U+0100,
    [parse_pytorch_version] returns [None], which [main] reports as an
    unparseable version, if and only if the string does not start with two
    dot-separated integers followed by one more dot; when it does and
    neither integer has more than 4300 digits, parsing succeeds with the
    major.minor formed from the two integers; when one of them is longer,
    [int] raises [ValueError]. *)
Theorem parse_fails_iff_no_version_prefix (s : string) :
  (parse_pytorch_version (PyStr s) = Ok PyNone <-> ~ has_version_prefix s) /\
  (forall a b rest,
      is_integer a -> is_integer b -> s = a ++ "." ++ b ++ "." ++ rest ->
      (within_limit a /\ within_limit b ->
       parse_pytorch_version (PyStr s) =
       Ok (PyStr (str_of_int (int_of_digits a) ++ "." ++
                  str_of_int (int_of_digits b)))) /\
      (~ (within_limit a /\ within_limit b) ->
       parse_pytorch_version (PyStr s) = Raise ValueError)).
Proof.
  split.
  - apply parse_none_iff.
  - intros a b rest Ha Hb ->. split.
    + intros [La Lb]. now apply parse_version_prefix.
    + intros L. now apply parse_version_prefix_beyond.
Qed.

Lemma parse_fails_iff_no_version_prefix_witness :
  is_integer "2" /\ is_integer "8" /\ within_limit "2" /\ within_limit "8" /\
  parse_pytorch_version (PyStr "2.8.0") = Ok (PyStr "2.8").
Proof.
  assert (H2 : is_integer "2") by (split; [reflexivity | discriminate]).
  assert (H8 : is_integer "8") by (split; [reflexivity | discriminate]).
  assert (L2 : within_limit "2") by (unfold within_limit, int_max_str_digits; cbn; lia).
  assert (L8 : within_limit "8") by (unfold within_limit, int_max_str_digits; cbn; lia).
  split; [exact H2 | split; [exact H8 | split; [exact L2 | split; [exact L8|]]]].
  exact (proj1 (proj2 (parse_fails_iff_no_version_prefix "2.8.0")
                      "2" "8" "0" H2 H8 eq_refl) (conj L2 L8)).
Defined.

(** C2, as the claim words it, fails: ["02.08.0"] has the shape
    ["X.Y.Z"] with the integer components [02] and [08], and the parser
    returns ["2.8"], not ["02.08"]. *)
Lemma leading_zeros_are_not_kept :
  is_integer "02" /\ is_integer "08" /\
  parse_pytorch_version (PyStr ("02" ++ "." ++ "08" ++ "." ++ "0")) =
    Ok (PyStr "2.8") /\
  parse_pytorch_version (PyStr ("02" ++ "." ++ "08" ++ "." ++ "0")) <>
    Ok (PyStr ("02" ++ "." ++ "08")).
Proof.
  repeat split; try reflexivity; discriminate.
Qed.

(** C2 (amended): on every version string ["X.Y.Z..."], two integers of at
    most 4300 digits separated by a dot and followed by a dot and any
    remainder, the parser returns [str(int(X))], a dot and [str(int(Y))],
    and nothing of the remainder; that is ["X.Y"] exactly when [X] and [Y]
    are written without superfluous leading zeros. *)
Theorem parse_returns_major_minor (a b rest : string) :
  is_integer a -> is_integer b -> within_limit a -> within_limit b ->
  parse_pytorch_version (PyStr (a ++ "." ++ b ++ "." ++ rest)) =
    Ok (PyStr (str_of_int (int_of_digits a) ++ "." ++ str_of_int (int_of_digits b))) /\
  (no_leading_zero a = true -> no_leading_zero b = true ->
   parse_pytorch_version (PyStr (a ++ "." ++ b ++ "." ++ rest)) =
     Ok (PyStr (a ++ "." ++ b))).
Proof.
  intros Ha Hb La Lb.
  rewrite parse_version_prefix by assumption. unfold format_major_minor.
  split; [reflexivity|]. intros Za Zb.
  now rewrite !str_of_int_of_digits_canonical.
Qed.

Lemma parse_returns_major_minor_witness :
  parse_pytorch_version (PyStr "12.345.6+cu118") = Ok (PyStr "12.345") /\
  parse_pytorch_version (PyStr "012.0345.6+cu118") = Ok (PyStr "12.345").
Proof.
  assert (L : forall s, (String.length s <= 4)%nat -> within_limit s).
  { unfold within_limit, int_max_str_digits. intros s H. lia. }
  assert (I : forall s, all_digits s = true -> s <> "" -> is_integer s).
  { intros s H1 H2. now split. }
  pose proof (parse_returns_major_minor "12" "345" "6+cu118"
                (I "12" eq_refl ltac:(discriminate))
                (I "345" eq_refl ltac:(discriminate))
                (L "12" ltac:(cbn; lia)) (L "345" ltac:(cbn; lia))) as [_ P1].
  pose proof (parse_returns_major_minor "012" "0345" "6+cu118"
                (I "012" eq_refl ltac:(discriminate))
                (I "0345" eq_refl ltac:(discriminate))
                (L "012" ltac:(cbn; lia)) (L "0345" ltac:(cbn; lia))) as [P2 _].
  split; [exact (P1 eq_refl eq_refl) | exact P2].
Defined.

(** The limit at work: a major component of 4301 digits. *)
Example parse_oversized :
  parse_pytorch_version (PyStr oversized_version) = Raise ValueError.
Proof. vm_compute. reflexivity. Qed.

Lemma int_of_digits_leading_zero (a : string) :
  int_of_digits ("0" ++ a) = int_of_digits a.
Proof. reflexivity. Qed.

Lemma is_integer_leading_zero (a : string) : is_integer a -> is_integer ("0" ++ a).
Proof. intros [H _]. split; [exact H | discriminate]. Qed.

(** A zero in front of either component changes nothing, as long as the
    longer spelling stays within the limit. *)
Lemma leading_zeros_are_dropped (a b rest : string) :
  is_integer a -> is_integer b ->
  within_limit ("0" ++ a) -> within_limit ("0" ++ b) ->
  parse_pytorch_version (PyStr (("0" ++ a) ++ "." ++ ("0" ++ b) ++ "." ++ rest)) =
  parse_pytorch_version (PyStr (a ++ "." ++ b ++ "." ++ rest)).
Proof.
  intros Ha Hb La Lb.
  assert (La' : within_limit a) by (unfold within_limit in *; cbn in La; lia).
  assert (Lb' : within_limit b) by (unfold within_limit in *; cbn in Lb; lia).
  rewrite (parse_version_prefix a b) by assumption.
  rewrite parse_version_prefix by (assumption || now apply is_integer_leading_zero).
  now rewrite !int_of_digits_leading_zero.
Qed.

(** C10: when parsing succeeds, the result depends only on the two leading
    integers and is printed in canonical decimal form: the text after the
    second dot does not matter, and another spelling of the same integers
    (leading zeros), where it parses, parses to the same result, the
    spelling [str] gives. *)
Theorem parse_depends_on_components (a b a' b' s1 s2 r : string) :
  is_integer a -> is_integer b -> is_integer a' -> is_integer b' ->
  int_of_digits a' = int_of_digits a -> int_of_digits b' = int_of_digits b ->
  parse_pytorch_version (PyStr (a ++ "." ++ b ++ "." ++ s1)) = Ok (PyStr r) ->
  r = str_of_int (int_of_digits a) ++ "." ++ str_of_int (int_of_digits b) /\
  parse_pytorch_version (PyStr (a ++ "." ++ b ++ "." ++ s2)) = Ok (PyStr r) /\
  (forall r',
      parse_pytorch_version (PyStr (a' ++ "." ++ b' ++ "." ++ s2)) = Ok (PyStr r') ->
      r' = r) /\
  (within_limit a' -> within_limit b' ->
   parse_pytorch_version (PyStr (a' ++ "." ++ b' ++ "." ++ s2)) = Ok (PyStr r)).
Proof.
  intros Ha Hb Ha' Hb' Ea Eb H.
  destruct (parse_prefix_ok_inv _ _ _ _ Ha Hb H) as (La & Lb & ->).
  split; [reflexivity | split; [now apply parse_version_prefix | split]].
  - intros r' H'.
    destruct (parse_prefix_ok_inv _ _ _ _ Ha' Hb' H') as (_ & _ & ->).
    now rewrite Ea, Eb.
  - intros La' Lb'. rewrite parse_version_prefix by assumption.
    now rewrite Ea, Eb.
Qed.

Lemma parse_depends_on_components_witness :
  "2.8" = str_of_int (int_of_digits "02") ++ "." ++ str_of_int (int_of_digits "08") /\
  parse_pytorch_version (PyStr "02.08.1+cu118") = Ok (PyStr "2.8") /\
  (forall r',
      parse_pytorch_version (PyStr "2.8.1+cu118") = Ok (PyStr r') -> r' = "2.8") /\
  (within_limit "2" -> within_limit "8" ->
   parse_pytorch_version (PyStr "2.8.1+cu118") = Ok (PyStr "2.8")).
Proof.
  apply (parse_depends_on_components "02" "08" "2" "8" "0" "1+cu118" "2.8");
    try reflexivity; (split; [reflexivity | discriminate]).
Defined.

(** ** [main]: how a run ends, from what was resolved *)

Lemma run_script_resolve_raises (argv : list string) (w : world) e :
  resolve_version argv w = Raise e ->
  run_script argv w =
  {| out := ""; err := "ERROR: " ++ exn_str w e ++ newline; status := 1 |}.
Proof.
  intros H. unfold run_script, main, io_bind, lift. rewrite H. reflexivity.
Qed.

Lemma run_script_unresolved (argv : list string) (w : world) v src :
  resolve_version argv w = Ok (v, src) -> truthy v = false ->
  run_script argv w = {| out := ""; err := unresolved_message; status := 1 |}.
Proof.
  intros H Hv. unfold run_script, main. unfold io_bind at 1. unfold lift at 1.
  rewrite H, Hv. reflexivity.
Qed.

Lemma run_script_raises (argv : list string) (w : world) v src e :
  resolve_version argv w = Ok (v, src) -> truthy v = true ->
  parse_pytorch_version v = Raise e ->
  run_script argv w =
  {| out := ""; err := "ERROR: " ++ exn_str w e ++ newline; status := 1 |}.
Proof.
  intros H Hv Hp. unfold run_script, main. unfold io_bind at 1. unfold lift at 1.
  rewrite H, Hv. cbn [negb]. unfold io_bind, lift. rewrite Hp. reflexivity.
Qed.

Lemma run_script_unparseable (argv : list string) (w : world) v src :
  resolve_version argv w = Ok (v, src) -> truthy v = true ->
  parse_pytorch_version v = Ok PyNone ->
  run_script argv w = {| out := ""; err := unparseable_message; status := 1 |}.
Proof.
  intros H Hv Hp. unfold run_script, main. unfold io_bind at 1. unfold lift at 1.
  rewrite H, Hv. cbn [negb]. unfold io_bind, lift. rewrite Hp. reflexivity.
Qed.

Lemma run_script_success (argv : list string) (w : world) s mm t :
  resolve_version argv w = Ok (PyStr s, Some t) ->
  parse_pytorch_version (PyStr s) = Ok (PyStr mm) ->
  run_script argv w =
  {| out := success_output s mm t; err := ""; status := 0 |}.
Proof.
  intros H Hp. destruct (parse_ok_truthy _ _ Hp) as [Hs Hmm].
  unfold run_script, main. unfold io_bind at 1. unfold lift at 1.
  rewrite H, Hs. cbn [negb].
  unfold io_bind at 1. unfold lift at 1. rewrite Hp. rewrite Hmm. cbn [negb].
  unfold io_bind, print_out, write_out, read_source, io_ret, empty_console.
  cbn [stdout stderr py_str]. unfold success_output.
  f_equal. rewrite !app_assoc_str. reflexivity.
Qed.

(** ** The checkpoint step *)

Lemma checkpoint_step_given (argv : list string) (w : world) (p : string) :
  checkpoint_path_of argv = Some p -> p <> "" ->
  checkpoint_step argv w =
  res_bind (get_torch_version_from_checkpoint w p)
           (fun version => Ok (version, Some checkpoint)).
Proof.
  intros H Hp. unfold checkpoint_step. rewrite H. cbn [truthy].
  apply String.eqb_neq in Hp. now rewrite Hp.
Qed.

Lemma checkpoint_step_tag (argv : list string) (w : world) v src :
  checkpoint_step argv w = Ok (v, src) -> truthy v = true -> src = Some checkpoint.
Proof.
  unfold checkpoint_step.
  destruct (checkpoint_path_of argv) as [p|]; [|intros [= <- <-]; discriminate].
  destruct (truthy (PyStr p)); [|intros [= <- <-]; discriminate].
  destruct (get_torch_version_from_checkpoint w p); cbn [res_bind];
    [now intros [= <- <-] | discriminate].
Qed.

Lemma resolve_version_kept (argv : list string) (w : world) v src :
  checkpoint_step argv w = Ok (v, src) -> truthy v = true ->
  resolve_version argv w = Ok (v, Some checkpoint).
Proof.
  intros H Hv. rewrite (checkpoint_step_tag _ _ _ _ H Hv) in H.
  unfold resolve_version. rewrite H. cbn [res_bind]. now rewrite Hv.
Qed.

Lemma resolve_version_fallback (argv : list string) (w : world) v src :
  checkpoint_step argv w = Ok (v, src) -> truthy v = false ->
  resolve_version argv w = Ok (get_torch_version_from_env w, Some environment).
Proof.
  intros H Hv. unfold resolve_version. rewrite H. cbn [res_bind]. now rewrite Hv.
Qed.

Lemma resolve_version_raises (argv : list string) (w : world) e :
  checkpoint_step argv w = Raise e -> resolve_version argv w = Raise e.
Proof. intros H. unfold resolve_version. now rewrite H. Qed.

(** Only the test of the path can make the checkpoint step raise. *)
Lemma checkpoint_step_raises_inv (argv : list string) (w : world) e :
  checkpoint_step argv w = Raise e ->
  exists p, checkpoint_path_of argv = Some p /\ p <> "" /\
            path_exists w p = Raise e.
Proof.
  unfold checkpoint_step.
  destruct (checkpoint_path_of argv) as [p|]; [|discriminate].
  destruct (truthy (PyStr p)) eqn:T; [|discriminate].
  unfold get_torch_version_from_checkpoint.
  destruct (path_exists w p) as [found|e'] eqn:E; cbn [res_bind].
  - destruct (negb found); [discriminate|].
    destruct (inspect_checkpoint w p); discriminate.
  - intros [= <-]. exists p. split; [reflexivity | split; [|exact E]].
    intros ->. discriminate.
Qed.

(** [source] is bound whenever [main] reads it. *)
Lemma resolve_version_source_bound (argv : list string) (w : world) v src :
  resolve_version argv w = Ok (v, src) -> exists t, src = Some t.
Proof.
  unfold resolve_version.
  destruct (checkpoint_step argv w) as [[v0 s0]|e] eqn:E; cbn [res_bind];
    [|discriminate].
  destruct (truthy v0) eqn:T; cbn [negb]; intros [= <- <-]; [|eauto].
  rewrite (checkpoint_step_tag _ _ _ _ E T). eauto.
Qed.

Lemma get_torch_version_from_env_available (w : world) (t : torch_module) :
  torch w = Some t -> get_torch_version_from_env w = PyStr (torch_version t).
Proof. unfold get_torch_version_from_env, import_torch. now intros ->. Qed.

Lemma get_torch_version_from_env_missing (w : world) :
  torch w = None -> get_torch_version_from_env w = PyNone.
Proof. unfold get_torch_version_from_env, import_torch. now intros ->. Qed.

(** Without the runtime the checkpoint step cannot produce anything:
    [import torch] fails inside the [try]. *)
Lemma checkpoint_step_needs_torch (argv : list string) (w : world) v src :
  torch w = None -> checkpoint_step argv w = Ok (v, src) -> v = PyNone.
Proof.
  intros H. unfold checkpoint_step.
  destruct (checkpoint_path_of argv) as [p|]; [|now intros [= <- <-]].
  destruct (truthy (PyStr p)); [|now intros [= <- <-]].
  unfold get_torch_version_from_checkpoint, inspect_checkpoint, import_torch.
  rewrite H. destruct (path_exists w p) as [found|e]; cbn [res_bind]; [|discriminate].
  destruct (negb found); now intros [= <- <-].
Qed.

(** *** Inspection of a loaded dictionary with well-shaped entries *)

Section Loaded.
Variables (w : world) (t : torch_module) (p : string).
Variable d : list (pyval * pyval).
Hypothesis torch_available : torch w = Some t.
Hypothesis artifact_exists : path_exists w p = Ok true.
Hypothesis artifact_loads : torch_load t p = Ok (PyDict d).

Lemma loaded_inspection :
  get_torch_version_from_checkpoint w p =
  Ok match or_else (check_hyper_parameters (PyDict d))
             (or_else (check_metadata (PyDict d)) (check_callbacks (PyDict d))) with
     | Ok (Some v) => v
     | Ok None => PyStr (torch_version t)
     | Raise _ => PyNone
     end.
Proof.
  unfold get_torch_version_from_checkpoint, inspect_checkpoint, import_torch.
  rewrite artifact_exists, torch_available. cbn [negb res_bind].
  rewrite artifact_loads. cbn [res_bind isinstance_dict].
  destruct (or_else _ _) as [[v|]|e]; reflexivity.
Qed.

Lemma check_hyper_parameters_found h v :
  dict_lookup "hyper_parameters" d = Some (PyDict h) ->
  dict_lookup "torch_version" h = Some v ->
  check_hyper_parameters (PyDict d) = Ok (Some v).
Proof.
  intros Hh Hv. unfold check_hyper_parameters, py_contains, py_getitem, dict_has.
  rewrite Hh. cbn [res_bind]. now rewrite Hv.
Qed.

Lemma check_hyper_parameters_silent :
  hyper_parameters_silent d -> check_hyper_parameters (PyDict d) = Ok None.
Proof.
  unfold check_hyper_parameters, py_contains, py_getitem, dict_has.
  intros [H | (h & Hh & Hv)].
  - now rewrite H.
  - rewrite Hh. cbn [res_bind]. now rewrite Hv.
Qed.

Lemma check_metadata_found m v :
  dict_lookup "metadata" d = Some (PyDict m) ->
  dict_lookup "torch_version" m = Some v ->
  check_metadata (PyDict d) = Ok (Some v).
Proof.
  intros Hm Hv. unfold check_metadata, py_contains, py_getitem, dict_has.
  rewrite Hm. cbn [res_bind isinstance_dict py_and]. now rewrite Hv.
Qed.

Lemma check_metadata_silent :
  metadata_silent d -> check_metadata (PyDict d) = Ok None.
Proof.
  unfold check_metadata, py_contains, py_getitem, dict_has.
  intros [H | [(m & Hm & Hd) | (m & Hm & Hv)]].
  - now rewrite H.
  - rewrite Hm. cbn [res_bind]. now rewrite Hd.
  - rewrite Hm. cbn [res_bind isinstance_dict py_and]. now rewrite Hv.
Qed.

(** First priority: [hyper_parameters.torch_version]. *)
Lemma hyper_parameters_first h v :
  dict_lookup "hyper_parameters" d = Some (PyDict h) ->
  dict_lookup "torch_version" h = Some v ->
  get_torch_version_from_checkpoint w p = Ok v.
Proof.
  intros Hh Hv. rewrite loaded_inspection.
  unfold or_else at 1. now rewrite (check_hyper_parameters_found h v).
Qed.

(** Second priority: [metadata.torch_version]. *)
Lemma metadata_second m v :
  hyper_parameters_silent d ->
  dict_lookup "metadata" d = Some (PyDict m) ->
  dict_lookup "torch_version" m = Some v ->
  get_torch_version_from_checkpoint w p = Ok v.
Proof.
  intros Hh Hm Hv. rewrite loaded_inspection.
  unfold or_else. rewrite (check_hyper_parameters_silent Hh). cbn [res_bind].
  now rewrite (check_metadata_found m v).
Qed.

(** Third priority: the first entry of [callbacks] that is a mapping with
    a [torch_version]. *)
Lemma callbacks_third c v :
  hyper_parameters_silent d -> metadata_silent d ->
  dict_lookup "callbacks" d = Some (PyDict c) ->
  scan_callbacks (map snd c) = Ok (Some v) ->
  get_torch_version_from_checkpoint w p = Ok v.
Proof.
  intros Hh Hm Hc Hv. rewrite loaded_inspection.
  unfold or_else. rewrite (check_hyper_parameters_silent Hh). cbn [res_bind].
  rewrite (check_metadata_silent Hm). cbn [res_bind].
  unfold check_callbacks, py_contains, dict_has, dict_get_default.
  rewrite Hc. cbn [res_bind py_values]. now rewrite Hv.
Qed.

(** No version anywhere: the runtime's own version stands in. *)
Lemma no_version_key_proxy :
  hyper_parameters_silent d -> metadata_silent d ->
  dict_lookup "callbacks" d = None ->
  get_torch_version_from_checkpoint w p = Ok (PyStr (torch_version t)).
Proof.
  intros Hh Hm Hc. rewrite loaded_inspection.
  unfold or_else. rewrite (check_hyper_parameters_silent Hh). cbn [res_bind].
  rewrite (check_metadata_silent Hm). cbn [res_bind].
  unfold check_callbacks, py_contains, dict_has. now rewrite Hc.
Qed.
End Loaded.

(** The loop over [callbacks] skips what is not a mapping and what has no
    [torch_version], and never raises. *)
Lemma scan_callbacks_skip (callback : pyval) (rest : list pyval) :
  (isinstance_dict callback = false \/
   exists c, callback = PyDict c /\ dict_lookup "torch_version" c = None) ->
  scan_callbacks (callback :: rest) = scan_callbacks rest.
Proof.
  intros [H | (c & -> & H)]; cbn [scan_callbacks].
  - now rewrite H.
  - cbn [isinstance_dict py_and py_contains res_bind]. unfold dict_has. now rewrite H.
Qed.

Lemma scan_callbacks_hit (c : list (pyval * pyval)) (v : pyval) (rest : list pyval) :
  dict_lookup "torch_version" c = Some v ->
  scan_callbacks (PyDict c :: rest) = Ok (Some v).
Proof.
  intros H. cbn [scan_callbacks isinstance_dict py_and py_contains res_bind].
  unfold dict_has. rewrite H. cbn [py_getitem]. now rewrite H.
Qed.

Lemma scan_callbacks_total (callbacks : list pyval) :
  exists r, scan_callbacks callbacks = Ok r.
Proof.
  induction callbacks as [|cb rest IH]; [now exists None|].
  destruct cb; try (rewrite scan_callbacks_skip by (now left); exact IH).
  destruct (dict_lookup "torch_version" d) as [v|] eqn:E.
  - exists (Some v). now apply scan_callbacks_hit.
  - rewrite scan_callbacks_skip; [exact IH | right; eauto].
Qed.

(** The checkpoint step on a path that was given and whose inspection
    returned. *)
Lemma checkpoint_step_returned (w : world) (p prog : string) (v : pyval) :
  p <> "" -> get_torch_version_from_checkpoint w p = Ok v ->
  checkpoint_step [prog; p] w = Ok (v, Some checkpoint).
Proof.
  intros Hp H. rewrite (checkpoint_step_given _ _ p) by (reflexivity || assumption).
  now rewrite H.
Qed.

(** ** Resolution *)

(** The spec's example: [hyper_parameters.torch_version = "2.8.0"] resolves
    to [("2.8.0", "2.8", "checkpoint")], whatever else the artifact holds. *)
Lemma hyper_parameters_280 (w : world) (t : torch_module) (p prog : string)
      (d h : list (pyval * pyval)) :
  torch w = Some t -> p <> "" -> path_exists w p = Ok true ->
  torch_load t p = Ok (PyDict d) ->
  dict_lookup "hyper_parameters" d = Some (PyDict h) ->
  dict_lookup "torch_version" h = Some (PyStr "2.8.0") ->
  resolve_version [prog; p] w = Ok (PyStr "2.8.0", Some checkpoint) /\
  run_script [prog; p] w =
  {| out := success_output "2.8.0" "2.8" checkpoint; err := ""; status := 0 |}.
Proof.
  intros Ht Hp He Hl Hh Hv.
  assert (R : resolve_version [prog; p] w = Ok (PyStr "2.8.0", Some checkpoint)).
  { apply resolve_version_kept with (src := Some checkpoint); [|reflexivity].
    apply checkpoint_step_returned; [assumption|].
    exact (hyper_parameters_first w t p d Ht He Hl h (PyStr "2.8.0") Hh Hv). }
  split; [exact R|]. now apply run_script_success.
Qed.

(** C3, at an artifact the code mishandles: [hyper_parameters] is [None],
    [metadata.torch_version] is ["2.7.1"].  The membership test on [None]
    raises inside the [try], the handler turns that into no result, and the
    run reports the runtime's 2.8 tagged [environment] instead of the
    embedded 2.7 tagged [checkpoint]. *)
Theorem hyper_parameters_none_hides_metadata :
  check_hyper_parameters ckpt_none_then_metadata = Raise TypeError /\
  check_metadata ckpt_none_then_metadata = Ok (Some (PyStr "2.7.1")) /\
  get_torch_version_from_checkpoint
    (sample_world (Ok ckpt_none_then_metadata)) "model.ckpt" = Ok PyNone /\
  run_script [script_name; "model.ckpt"] (sample_world (Ok ckpt_none_then_metadata)) =
  {| out := success_output "2.8.0+cu128" "2.8" environment; err := ""; status := 0 |}.
Proof. repeat split; reflexivity. Qed.

(** C4, at an artifact the code mishandles: it loads, holds no
    [torch_version] anywhere, and its [hyper_parameters] is [None].  The
    run reports the runtime's version tagged [environment], not
    [checkpoint]. *)
Theorem hyper_parameters_none_loses_checkpoint_tag :
  inspect_checkpoint (sample_world (Ok ckpt_hparams_none)) "model.ckpt" =
    Raise TypeError /\
  get_torch_version_from_checkpoint
    (sample_world (Ok ckpt_hparams_none)) "model.ckpt" = Ok PyNone /\
  resolve_version [script_name; "model.ckpt"] (sample_world (Ok ckpt_hparams_none)) =
    Ok (PyStr "2.8.0+cu128", Some environment) /\
  run_script [script_name; "model.ckpt"] (sample_world (Ok ckpt_hparams_none)) =
  {| out := success_output "2.8.0+cu128" "2.8" environment; err := ""; status := 0 |}.
Proof. repeat split; reflexivity. Qed.

(** Where the entries are well shaped, C4 holds: the proxy is tagged
    [checkpoint]. *)
Lemma no_version_key_tagged_checkpoint (w : world) (t : torch_module)
      (p prog mm : string) (d : list (pyval * pyval)) :
  torch w = Some t -> p <> "" -> path_exists w p = Ok true ->
  torch_load t p = Ok (PyDict d) ->
  hyper_parameters_silent d -> metadata_silent d ->
  dict_lookup "callbacks" d = None ->
  parse_pytorch_version (PyStr (torch_version t)) = Ok (PyStr mm) ->
  run_script [prog; p] w =
  {| out := success_output (torch_version t) mm checkpoint; err := ""; status := 0 |}.
Proof.
  intros Ht Hp He Hl Hh Hm Hc Hmm.
  apply run_script_success; [|assumption].
  apply resolve_version_kept with (src := Some checkpoint).
  - apply checkpoint_step_returned; [assumption|].
    exact (no_version_key_proxy w t p d Ht He Hl Hh Hm Hc).
  - now destruct (parse_ok_truthy _ _ Hmm).
Qed.

(** C5, at a path the code mishandles: a file name of 300 characters names
    no existing file, and the test of the path, which stands before the
    [try], raises [OSError].  Nothing swallows it: the run ends with the
    exception on stderr and status 1, though the runtime is there and its
    version would have parsed. *)
Theorem long_name_is_not_swallowed :
  path_exists (long_name_world (Ok ckpt_plain)) long_name = Raise OSError /\
  get_torch_version_from_checkpoint (long_name_world (Ok ckpt_plain)) long_name =
    Raise OSError /\
  get_torch_version_from_env (long_name_world (Ok ckpt_plain)) =
    PyStr "2.8.0+cu128" /\
  parse_pytorch_version (PyStr "2.8.0+cu128") = Ok (PyStr "2.8") /\
  run_script [script_name; long_name] (long_name_world (Ok ckpt_plain)) =
  {| out := "";
     err := "ERROR: [Errno 36] File name too long: '" ++ long_name ++ "'" ++ newline;
     status := 1 |}.
Proof. repeat split; reflexivity. Qed.

(** Where the test of the path answers, C5 holds: when no artifact path
    was given, or the path names no existing file, or loading the artifact
    raises, nothing is propagated; with the runtime available the
    resolution is the runtime's version tagged [environment], and that is
    what the run prints. *)
Theorem checkpoint_failure_falls_back_to_environment
        (argv : list string) (w : world) (t : torch_module) :
  torch w = Some t ->
  (checkpoint_path_of argv = None \/
   checkpoint_path_of argv = Some "" \/
   exists p, checkpoint_path_of argv = Some p /\
             (path_exists w p = Ok false \/
              (path_exists w p = Ok true /\ exists e, torch_load t p = Raise e))) ->
  (exists src, checkpoint_step argv w = Ok (PyNone, src)) /\
  resolve_version argv w = Ok (PyStr (torch_version t), Some environment) /\
  forall mm,
    parse_pytorch_version (PyStr (torch_version t)) = Ok (PyStr mm) ->
    run_script argv w =
    {| out := success_output (torch_version t) mm environment;
       err := ""; status := 0 |}.
Proof.
  intros Ht Hfail.
  assert (S : exists src, checkpoint_step argv w = Ok (PyNone, src)).
  { unfold checkpoint_step.
    destruct Hfail as [-> | [-> | (p & -> & H)]]; [now exists None .. |].
    destruct (truthy (PyStr p)); [|now exists None].
    exists (Some checkpoint).
    unfold get_torch_version_from_checkpoint.
    destruct H as [-> | (-> & e & He)]; [reflexivity|].
    cbn [res_bind negb].
    unfold inspect_checkpoint, import_torch. rewrite Ht. cbn [res_bind].
    now rewrite He. }
  destruct S as [src S].
  assert (R : resolve_version argv w = Ok (PyStr (torch_version t), Some environment)).
  { rewrite (resolve_version_fallback _ _ _ _ S eq_refl).
    now rewrite (get_torch_version_from_env_available w t). }
  split; [now exists src | split; [exact R|]].
  intros mm Hmm. now apply run_script_success.
Qed.

Lemma checkpoint_failure_falls_back_to_environment_witness :
  (exists src,
      checkpoint_step [script_name; "missing.ckpt"] (sample_world (Ok ckpt_hparams_280))
      = Ok (PyNone, src)) /\
  resolve_version [script_name; "missing.ckpt"] (sample_world (Ok ckpt_hparams_280))
    = Ok (PyStr "2.8.0+cu128", Some environment) /\
  run_script [script_name; "missing.ckpt"] (sample_world (Ok ckpt_hparams_280)) =
  {| out := success_output "2.8.0+cu128" "2.8" environment; err := ""; status := 0 |}.
Proof.
  destruct (checkpoint_failure_falls_back_to_environment
              [script_name; "missing.ckpt"] (sample_world (Ok ckpt_hparams_280))
              {| torch_version := "2.8.0+cu128";
                 torch_load := fun _ => Ok ckpt_hparams_280 |}
              eq_refl
              (or_intror (or_intror
                 (ex_intro _ "missing.ckpt" (conj eq_refl (or_introl eq_refl))))))
    as (S & R & P).
  split; [exact S | split; [exact R | exact (P "2.8" eq_refl)]].
Defined.

(** C6: when no source produces a version, the checkpoint step yielding
    nothing and [torch] not being importable, the run prints the diagnostic
    on stderr, nothing on stdout, and exits with status 1. *)
Theorem unresolved_exits_with_status_1 (argv : list string) (w : world) v src :
  checkpoint_step argv w = Ok (v, src) -> truthy v = false ->
  torch w = None ->
  get_torch_version_from_env w = PyNone /\
  run_script argv w = {| out := ""; err := unresolved_message; status := 1 |}.
Proof.
  intros Hc Hv Ht.
  pose proof (get_torch_version_from_env_missing w Ht) as He.
  split; [exact He|].
  apply run_script_unresolved with (v := PyNone) (src := Some environment);
    [|reflexivity].
  rewrite (resolve_version_fallback _ _ _ _ Hc Hv). now rewrite He.
Qed.

Lemma unresolved_exits_with_status_1_witness :
  get_torch_version_from_env bare_world = PyNone /\
  run_script [script_name; "missing.ckpt"] bare_world =
  {| out := ""; err := unresolved_message; status := 1 |}.
Proof.
  exact (unresolved_exits_with_status_1
           [script_name; "missing.ckpt"] bare_world PyNone (Some checkpoint)
           eq_refl eq_refl eq_refl).
Defined.

(** ** Lines of the output *)

Lemma app_empty_r (a : string) : a ++ "" = a.
Proof. induction a as [|x a IH]; simpl; [reflexivity | now rewrite IH]. Qed.

Lemma no_break_app (a b : string) : no_break (a ++ b) = no_break a && no_break b.
Proof.
  induction a as [|c a IH]; [reflexivity|]. cbn [append no_break].
  rewrite IH. now rewrite andb_assoc.
Qed.

Lemma lines_from_break (a rest acc : string) :
  no_break a = true ->
  lines_from acc (a ++ newline ++ rest) = (acc ++ a) :: lines rest.
Proof.
  revert acc. induction a as [|c a IH]; intros acc H.
  - cbn. now rewrite app_empty_r.
  - cbn [no_break] in H. apply andb_true_iff in H. destruct H as [Hc Ha].
    apply negb_true_iff in Hc. cbn [append lines_from]. rewrite Hc.
    rewrite (IH _ Ha). now rewrite snoc_app.
Qed.

Lemma lines_from_no_break (a acc : string) :
  no_break a = true -> lines_from acc a = [acc ++ a].
Proof.
  revert acc. induction a as [|c a IH]; intros acc H.
  - cbn. now rewrite app_empty_r.
  - cbn [no_break] in H. apply andb_true_iff in H. destruct H as [Hc Ha].
    apply negb_true_iff in Hc. cbn [lines_from]. rewrite Hc.
    rewrite (IH _ Ha). now rewrite snoc_app.
Qed.

Lemma lines_four (a b c d : string) :
  no_break a = true -> no_break b = true -> no_break c = true -> no_break d = true ->
  lines (a ++ newline ++ b ++ newline ++ c ++ newline ++ d) = [a; b; c; d].
Proof.
  intros Ha Hb Hc Hd. unfold lines.
  rewrite lines_from_break by assumption. unfold lines.
  rewrite lines_from_break by assumption. unfold lines.
  rewrite lines_from_break by assumption. unfold lines.
  now rewrite lines_from_no_break.
Qed.

Lemma digits_no_break (s : string) : all_digits s = true -> no_break s = true.
Proof.
  induction s as [|c s IH]; [reflexivity|]. cbn [all_digits no_break].
  intros H. apply andb_true_iff in H. destruct H as [Hc Hs].
  rewrite (IH Hs), andb_true_r. apply negb_true_iff.
  destruct (Ascii.eqb c (ascii_of_nat 10)) eqn:E; [|reflexivity].
  apply Ascii.eqb_eq in E. subst c. discriminate.
Qed.

Lemma format_major_minor_no_break (x y : N) :
  no_break (format_major_minor x y) = true.
Proof.
  unfold format_major_minor. rewrite !no_break_app.
  destruct (str_of_int_is_integer x) as [Hx _].
  destruct (str_of_int_is_integer y) as [Hy _].
  rewrite (digits_no_break _ Hx), (digits_no_break _ Hy). reflexivity.
Qed.

Lemma success_output_lines (s mm : string) (t : source_tag) :
  no_break s = true -> no_break mm = true ->
  lines (success_output s mm t) =
  ["PYTORCH_VERSION=" ++ s; "PYTORCH_MAJOR_MINOR=" ++ mm; "SOURCE=" ++ tag_str t; mm].
Proof.
  intros Hs Hmm. unfold success_output.
  replace ("PYTORCH_VERSION=" ++ s ++ newline ++
           "PYTORCH_MAJOR_MINOR=" ++ mm ++ newline ++
           "SOURCE=" ++ tag_str t ++ newline ++ mm)
    with (("PYTORCH_VERSION=" ++ s) ++ newline ++
          ("PYTORCH_MAJOR_MINOR=" ++ mm) ++ newline ++
          ("SOURCE=" ++ tag_str t) ++ newline ++ mm)
    by (rewrite !app_assoc_str; reflexivity).
  apply lines_four; try assumption. now destruct t.
Qed.

(** C7, as the claim words it, fails: a raw version with a line break in
    it parses, the run succeeds, and stdout holds four [KEY=value] lines in
    front of the bare major.minor, among them a [SOURCE=] line that the
    script did not compose. *)
Lemma raw_version_can_add_lines :
  status (run_script [script_name; "model.ckpt"]
                     (sample_world (Ok ckpt_hparams_two_lines))) = 0%Z /\
  lines (out (run_script [script_name; "model.ckpt"]
                         (sample_world (Ok ckpt_hparams_two_lines)))) =
  ["PYTORCH_VERSION=2.8.0"; "SOURCE=forged"; "PYTORCH_MAJOR_MINOR=2.8";
   "SOURCE=checkpoint"; "2.8"].
Proof. split; reflexivity. Qed.

(** C7 (amended): a run either fails, with status 1, a diagnostic on stderr
    and nothing at all on stdout, or succeeds, with status 0 and on stdout
    [PYTORCH_VERSION=] with the raw version, [PYTORCH_MAJOR_MINOR=] with
    the parsed one and [SOURCE=] with the tag, each followed by a line
    break, and then the bare major.minor.  The raw version is printed as it
    is: these are exactly three lines and the bare major.minor when it
    holds no line break. *)
Theorem failure_writes_nothing_to_stdout (argv : list string) (w : world) :
  (status (run_script argv w) = 1%Z /\
   out (run_script argv w) = "" /\
   err (run_script argv w) <> "")
  \/
  (status (run_script argv w) = 0%Z /\
   exists s mm t,
     resolve_version argv w = Ok (PyStr s, Some t) /\
     parse_pytorch_version (PyStr s) = Ok (PyStr mm) /\
     out (run_script argv w) = success_output s mm t /\
     (no_break s = true ->
      lines (out (run_script argv w)) =
      ["PYTORCH_VERSION=" ++ s; "PYTORCH_MAJOR_MINOR=" ++ mm;
       "SOURCE=" ++ tag_str t; mm])).
Proof.
  destruct (resolve_version argv w) as [[v src]|e] eqn:R.
  - destruct (resolve_version_source_bound _ _ _ _ R) as [t ->].
    destruct (truthy v) eqn:Tv.
    + destruct (parse_pytorch_version v) as [parsed|e] eqn:P.
      * destruct (parse_ok_shape _ _ P) as [-> | (s & mm & -> & ->)].
        -- left. rewrite (run_script_unparseable _ _ _ _ R Tv P).
           split; [reflexivity | split; [reflexivity | discriminate]].
        -- right. rewrite (run_script_success _ _ _ _ _ R P).
           split; [reflexivity|]. exists s, mm, t.
           split; [reflexivity | split; [exact P | split; [reflexivity|]]].
           intros Hs. cbn [out]. apply success_output_lines; [exact Hs|].
           destruct (parse_ok_inv _ _ P) as (_ & g1 & g2 & _ & _ & _ & _ & ->).
           apply format_major_minor_no_break.
      * left. rewrite (run_script_raises _ _ _ _ _ R Tv P).
        split; [reflexivity | split; [reflexivity | discriminate]].
    + left. rewrite (run_script_unresolved _ _ _ _ R Tv).
      split; [reflexivity | split; [reflexivity | discriminate]].
  - left. rewrite (run_script_resolve_raises _ _ _ R).
    split; [reflexivity | split; [reflexivity | discriminate]].
Qed.

Lemma failure_writes_nothing_to_stdout_witness :
  lines (out (run_script [script_name; "model.ckpt"]
                         (sample_world (Ok ckpt_hparams_280)))) =
  ["PYTORCH_VERSION=2.8.0"; "PYTORCH_MAJOR_MINOR=2.8"; "SOURCE=checkpoint"; "2.8"].
Proof.
  destruct (failure_writes_nothing_to_stdout
              [script_name; "model.ckpt"] (sample_world (Ok ckpt_hparams_280)))
    as [(H & _) | (_ & s & mm & t & R & P & _ & L)].
  - vm_compute in H. discriminate H.
  - vm_compute in R. injection R as <- <-.
    vm_compute in P. injection P as <-.
    exact (L eq_refl).
Defined.

(** ** What a run looks at *)

Lemma get_torch_version_from_env_same (path : option string) (w1 w2 : world) :
  same_runtime path w1 w2 ->
  get_torch_version_from_env w1 = get_torch_version_from_env w2.
Proof.
  unfold same_runtime, get_torch_version_from_env, import_torch.
  destruct (torch w1), (torch w2); try tauto. now intros [-> _].
Qed.

Lemma get_torch_version_from_checkpoint_same (p : string) (w1 w2 : world) :
  same_artifact (Some p) w1 w2 -> same_runtime (Some p) w1 w2 ->
  get_torch_version_from_checkpoint w1 p = get_torch_version_from_checkpoint w2 p.
Proof.
  unfold same_artifact, same_runtime, get_torch_version_from_checkpoint,
    inspect_checkpoint, import_torch.
  intros ->. destruct (path_exists w2 p) as [found|e]; [|reflexivity].
  cbn [res_bind]. destruct (negb found); [reflexivity|].
  destruct (torch w1), (torch w2); try tauto.
  intros [Hv Hl]. cbn [res_bind]. now rewrite Hv, Hl.
Qed.

Lemma resolve_version_same (argv1 argv2 : list string) (w1 w2 : world) :
  same_inputs argv1 argv2 w1 w2 ->
  resolve_version argv1 w1 = resolve_version argv2 w2.
Proof.
  intros (Hp & Ha & Hr & _).
  unfold resolve_version, checkpoint_step. rewrite <- Hp.
  rewrite (get_torch_version_from_env_same _ _ _ Hr).
  destruct (checkpoint_path_of argv1) as [p|]; [|reflexivity].
  now rewrite (get_torch_version_from_checkpoint_same p w1 w2 Ha Hr).
Qed.

(** [main] looks at the world through [resolve_version] only. *)
Lemma main_same (argv1 argv2 : list string) (w1 w2 : world) :
  resolve_version argv1 w1 = resolve_version argv2 w2 ->
  main argv1 w1 = main argv2 w2.
Proof. intros H. unfold main. now rewrite H. Qed.

(** A run reads [sys.argv] at index 1 only and the world at that path
    only: the program name, further arguments, and what other paths hold
    have no influence on what it writes and how it exits. *)
Theorem same_inputs_same_run (argv1 argv2 : list string) (w1 w2 : world) :
  same_inputs argv1 argv2 w1 w2 ->
  run_script argv1 w1 = run_script argv2 w2.
Proof.
  intros H. pose proof (main_same _ _ _ _ (resolve_version_same _ _ _ _ H)) as M.
  destruct H as (_ & _ & _ & He).
  unfold run_script. rewrite M.
  destruct (main argv2 w2 empty_console) as [[r|code|e] c]; try reflexivity.
  now rewrite He.
Qed.

Lemma same_inputs_same_run_witness :
  same_inputs [script_name; "model.ckpt"] ["python3"; "model.ckpt"; "--verbose"]
              (sample_world (Ok ckpt_hparams_280))
              (crowded_world (Ok ckpt_hparams_280)) /\
  run_script [script_name; "model.ckpt"] (sample_world (Ok ckpt_hparams_280)) =
  run_script ["python3"; "model.ckpt"; "--verbose"] (crowded_world (Ok ckpt_hparams_280)).
Proof.
  assert (H : same_inputs [script_name; "model.ckpt"]
                          ["python3"; "model.ckpt"; "--verbose"]
                          (sample_world (Ok ckpt_hparams_280))
                          (crowded_world (Ok ckpt_hparams_280))).
  { repeat split. }
  split; [exact H | exact (same_inputs_same_run _ _ _ _ H)].
Defined.

(** C9: a falsy value from the checkpoint step (an embedded
    [torch_version] that is the empty string, or [None]) counts as no
    result: [main] asks the environment, the tag becomes [environment], and
    the run is the one that no checkpoint argument would have given. *)
Theorem falsy_checkpoint_version_falls_back
        (argv : list string) (w : world) v src :
  checkpoint_step argv w = Ok (v, src) -> truthy v = false ->
  resolve_version argv w = Ok (get_torch_version_from_env w, Some environment) /\
  run_script argv w = run_script (firstn 1 argv) w /\
  forall t mm,
    torch w = Some t ->
    parse_pytorch_version (PyStr (torch_version t)) = Ok (PyStr mm) ->
    run_script argv w =
    {| out := success_output (torch_version t) mm environment;
       err := ""; status := 0 |}.
Proof.
  intros H Hv.
  pose proof (resolve_version_fallback argv w _ _ H Hv) as R.
  assert (R1 : resolve_version (firstn 1 argv) w =
               Ok (get_torch_version_from_env w, Some environment)).
  { apply resolve_version_fallback with (v := PyNone) (src := None); [|reflexivity].
    unfold checkpoint_step, checkpoint_path_of.
    destruct argv as [|a [|b l]]; reflexivity. }
  split; [exact R | split].
  - unfold run_script. now rewrite (main_same argv (firstn 1 argv) w w) by congruence.
  - intros t mm Ht Hmm. apply run_script_success; [|assumption].
    now rewrite R, (get_torch_version_from_env_available w t).
Qed.

Lemma falsy_checkpoint_version_falls_back_witness :
  get_torch_version_from_checkpoint (sample_world (Ok ckpt_hparams_empty)) "model.ckpt"
    = Ok (PyStr "") /\
  resolve_version [script_name; "model.ckpt"] (sample_world (Ok ckpt_hparams_empty))
    = Ok (PyStr "2.8.0+cu128", Some environment) /\
  run_script [script_name; "model.ckpt"] (sample_world (Ok ckpt_hparams_empty)) =
  {| out := success_output "2.8.0+cu128" "2.8" environment; err := ""; status := 0 |}.
Proof.
  destruct (falsy_checkpoint_version_falls_back
              [script_name; "model.ckpt"] (sample_world (Ok ckpt_hparams_empty))
              (PyStr "") (Some checkpoint) eq_refl eq_refl) as (R & _ & P).
  split; [reflexivity | split; [exact R |]].
  exact (P {| torch_version := "2.8.0+cu128";
              torch_load := fun _ => Ok ckpt_hparams_empty |} "2.8" eq_refl eq_refl).
Defined.

(** The same with an embedded [torch_version] that is [None]. *)
Example embedded_none_falls_back :
  get_torch_version_from_checkpoint (sample_world (Ok ckpt_hparams_unset)) "model.ckpt"
    = Ok PyNone /\
  run_script [script_name; "model.ckpt"] (sample_world (Ok ckpt_hparams_unset)) =
  {| out := success_output "2.8.0+cu128" "2.8" environment; err := ""; status := 0 |}.
Proof. split; reflexivity. Qed.

(** * Further properties *)

(** ** The pattern and the parser *)

Lemma take_digits_whole (a : string) :
  all_digits a = true -> take_digits a = a /\ drop_digits a = "".
Proof.
  induction a as [|c a IH]; simpl; [now split|].
  intros H. apply andb_true_iff in H. destruct H as [Hc Ha]. rewrite Hc.
  destruct (IH Ha) as [-> ->]. now split.
Qed.

(** The two groups of a match are the longest runs of digits at their
    places: the greedy quantifiers never give a digit back. *)
Theorem match_groups_are_maximal_runs (s g1 g2 : string) :
  re_match_version s = Some (g1, g2) <->
  (g1 = take_digits s /\ g1 <> "" /\
   exists r1, drop_digits s = String "." r1 /\
     g2 = take_digits r1 /\ g2 <> "" /\
     exists r2, drop_digits r1 = String "." r2).
Proof.
  rewrite re_match_version_scan. unfold scan_version. split.
  - intros H.
    destruct (take_digits s) as [|c a] eqn:E1; [discriminate|].
    destruct (drop_digits s) as [|c1 r1] eqn:E2; [discriminate|].
    destruct (is_dot c1) eqn:D1; [|discriminate].
    destruct (take_digits r1) as [|c' b] eqn:E3; [discriminate|].
    destruct (drop_digits r1) as [|c2 r2] eqn:E4; [discriminate|].
    destruct (is_dot c2) eqn:D2; [|discriminate].
    injection H as <- <-. apply is_dot_eq in D1, D2. subst c1 c2.
    split; [reflexivity | split; [discriminate|]].
    exists r1. split; [reflexivity | split; [now rewrite E3 | split; [discriminate|]]].
    now exists r2.
  - intros (-> & Hn & r1 & -> & -> & Hn' & r2 & ->).
    destruct (take_digits s) as [|c a]; [congruence|].
    change (is_dot ".") with true. cbv iota.
    destruct (take_digits r1) as [|c' b]; [congruence|]. reflexivity.
Qed.

Lemma match_groups_are_maximal_runs_witness :
  re_match_version "12.345.6789" = Some ("12", "345").
Proof.
  apply (proj2 (match_groups_are_maximal_runs "12.345.6789" "12" "345")).
  split; [reflexivity | split; [discriminate|]].
  exists "345.6789".
  split; [reflexivity | split; [reflexivity | split; [discriminate|]]].
  now exists "6789".
Defined.

Lemma format_major_minor_rejected (x y : N) :
  re_match_version (format_major_minor x y) = None.
Proof.
  rewrite re_match_version_scan. unfold scan_version, format_major_minor.
  destruct (str_of_int_is_integer x) as [Hx Hnx].
  destruct (str_of_int_is_integer y) as [Hy _].
  destruct (take_digits_app (str_of_int x) ("." ++ str_of_int y) Hx eq_refl)
    as [E1 E2].
  rewrite E1, E2.
  destruct (str_of_int x) as [|c a]; [congruence|].
  change ("." ++ str_of_int y) with (String "." (str_of_int y)).
  cbv beta iota zeta. change (is_dot ".") with true. cbv iota.
  destruct (take_digits_whole _ Hy) as [-> ->].
  now destruct (str_of_int y).
Qed.

(** What the parser returns it does not accept itself: a major.minor has
    no second dot. *)
Theorem parse_rejects_its_own_output (v : pyval) (mm : string) :
  parse_pytorch_version v = Ok (PyStr mm) ->
  parse_pytorch_version (PyStr mm) = Ok PyNone.
Proof.
  intros H. destruct (parse_ok_inv _ _ H) as (s & g1 & g2 & _ & _ & _ & _ & ->).
  unfold parse_pytorch_version. rewrite format_major_minor_truthy. cbn [negb].
  now rewrite format_major_minor_rejected.
Qed.

Lemma parse_rejects_its_own_output_witness :
  parse_pytorch_version (PyStr "2.8") = Ok PyNone.
Proof.
  exact (parse_rejects_its_own_output (PyStr "2.8.0+cu128") "2.8" eq_refl).
Defined.

(** Completed by a dot and anything else, the parser's output parses to
    itself: the output is a fixed point once it has the shape of a version. *)
Theorem parse_output_is_stable (v : pyval) (mm rest : string) :
  parse_pytorch_version v = Ok (PyStr mm) ->
  parse_pytorch_version (PyStr (mm ++ "." ++ rest)) = Ok (PyStr mm).
Proof.
  intros H. destruct (parse_ok_inv _ _ H) as (s & g1 & g2 & _ & E & L1 & L2 & ->).
  destruct (re_match_version_groups _ _ _ E) as [I1 I2].
  unfold format_major_minor. rewrite !app_assoc_str.
  change ("." ++ str_of_int (int_of_digits g2) ++ "." ++ rest)
    with ("." ++ (str_of_int (int_of_digits g2) ++ "." ++ rest)).
  rewrite parse_version_prefix
    by (apply str_of_int_is_integer || now apply str_of_int_within).
  unfold format_major_minor. now rewrite !int_of_str_of_int.
Qed.

Lemma parse_output_is_stable_witness :
  parse_pytorch_version (PyStr "2.8.dev20250101") = Ok (PyStr "2.8").
Proof.
  exact (parse_output_is_stable (PyStr "02.08.0") "2.8" "dev20250101" eq_refl).
Defined.

Lemma to_uint_normal (n : N) : unorm (N.to_uint n) = N.to_uint n.
Proof.
  rewrite <- (DecimalN.Unsigned.of_to n) at 2.
  now rewrite DecimalN.Unsigned.to_of.
Qed.

Lemma normal_no_leading_zero (d : uint) :
  unorm d = d -> no_leading_zero (NilEmpty.string_of_uint d) = true.
Proof.
  intros H.
  destruct d as [|d| | | | | | | | |]; try reflexivity;
    try (simpl; now destruct (NilEmpty.string_of_uint _)).
  rewrite unorm_D0 in H. unfold unorm in H.
  destruct (nzhead d) eqn:E; try discriminate.
  - injection H as <-. reflexivity.
  - exfalso. exact (nzhead_nonzero d _ E).
Qed.

Lemma str_of_int_no_leading_zero (n : N) : no_leading_zero (str_of_int n) = true.
Proof.
  rewrite str_of_int_unfold. apply normal_no_leading_zero, to_uint_normal.
Qed.

(** A parsed version is two canonical decimal numerals joined by one dot:
    digits only, no sign, no blank, no leading zero. *)
Theorem parsed_version_is_canonical (v : pyval) (mm : string) :
  parse_pytorch_version v = Ok (PyStr mm) ->
  exists major minor,
    mm = major ++ "." ++ minor /\
    is_integer major /\ no_leading_zero major = true /\
    is_integer minor /\ no_leading_zero minor = true.
Proof.
  intros H. destruct (parse_ok_inv _ _ H) as (s & g1 & g2 & _ & _ & _ & _ & ->).
  exists (str_of_int (int_of_digits g1)), (str_of_int (int_of_digits g2)).
  repeat split; try apply str_of_int_is_integer;
    apply str_of_int_no_leading_zero.
Qed.

Lemma parsed_version_is_canonical_witness :
  exists major minor,
    "2.8" = major ++ "." ++ minor /\
    is_integer major /\ no_leading_zero major = true /\
    is_integer minor /\ no_leading_zero minor = true.
Proof.
  exact (parsed_version_is_canonical (PyStr "002.08.0") "2.8" eq_refl).
Defined.

(** ** Versions that are found and cannot be used *)

(** An embedded version that is truthy and not a string (a number, a
    list) is neither parsed nor replaced by the runtime's: [re.match]
    raises, the handler of the script prints the exception, and the run
    ends with status 1 and an empty stdout. *)
Theorem non_string_version_is_an_error (argv : list string) (w : world) v src :
  checkpoint_step argv w = Ok (v, src) ->
  truthy v = true -> (forall s, v <> PyStr s) ->
  run_script argv w =
  {| out := ""; err := "ERROR: " ++ exn_str w TypeError ++ newline; status := 1 |}.
Proof.
  intros H T Hs.
  apply run_script_raises with (v := v) (src := Some checkpoint).
  - now apply resolve_version_kept with (src := src).
  - exact T.
  - now apply parse_non_string.
Qed.

Lemma non_string_version_is_an_error_witness :
  run_script [script_name; "model.ckpt"] (sample_world (Ok ckpt_hparams_number)) =
  {| out := ""; err := "ERROR: " ++ newline; status := 1 |}.
Proof.
  exact (non_string_version_is_an_error
           [script_name; "model.ckpt"] (sample_world (Ok ckpt_hparams_number))
           (PyInt 2) (Some checkpoint) eq_refl eq_refl
           (fun s H => eq_ind (PyInt 2)
                         (fun x => match x with PyInt _ => True | _ => False end)
                         I (PyStr s) H)).
Defined.

(** A version string found in the checkpoint that has no version prefix is
    fatal: the run does not go on to the runtime's version, however well
    that one would parse. *)
Theorem unparseable_version_does_not_fall_back
        (argv : list string) (w : world) (s : string) src :
  checkpoint_step argv w = Ok (PyStr s, src) ->
  s <> "" -> ~ has_version_prefix s ->
  run_script argv w = {| out := ""; err := unparseable_message; status := 1 |}.
Proof.
  intros H Hs Hp.
  assert (T : truthy (PyStr s) = true).
  { cbn. apply String.eqb_neq in Hs. now rewrite Hs. }
  apply run_script_unparseable with (v := PyStr s) (src := Some checkpoint).
  - now apply resolve_version_kept with (src := src).
  - exact T.
  - now apply parse_none_iff.
Qed.

Lemma unparseable_version_does_not_fall_back_witness :
  get_torch_version_from_env (sample_world (Ok ckpt_hparams_two_components)) =
    PyStr "2.8.0+cu128" /\
  run_script [script_name; "model.ckpt"]
             (sample_world (Ok ckpt_hparams_two_components)) =
  {| out := ""; err := unparseable_message; status := 1 |}.
Proof.
  split; [reflexivity|].
  apply (unparseable_version_does_not_fall_back
           [script_name; "model.ckpt"]
           (sample_world (Ok ckpt_hparams_two_components)) "2.8" (Some checkpoint)).
  - reflexivity.
  - discriminate.
  - apply parse_none_iff. reflexivity.
Defined.

(** A version whose major or minor component has more digits than [int]
    takes is fatal as well: [int] raises [ValueError], the handler of the
    script prints it, and the run ends with status 1 and an empty stdout. *)
Theorem oversized_version_is_an_error
        (argv : list string) (w : world) (a b rest : string) src :
  resolve_version argv w = Ok (PyStr (a ++ "." ++ b ++ "." ++ rest), src) ->
  is_integer a -> is_integer b -> ~ (within_limit a /\ within_limit b) ->
  run_script argv w =
  {| out := ""; err := "ERROR: " ++ exn_str w ValueError ++ newline; status := 1 |}.
Proof.
  intros R Ha Hb L.
  apply run_script_raises with (v := PyStr (a ++ "." ++ b ++ "." ++ rest)) (src := src).
  - exact R.
  - now apply is_integer_app_truthy.
  - now apply parse_version_prefix_beyond.
Qed.

Lemma repeat_char_length (c : ascii) (n : nat) :
  String.length (repeat_char c n) = n.
Proof. induction n as [|n IH]; cbn; congruence. Qed.

Lemma repeat_digit_is_integer (c : ascii) (n : nat) :
  is_digit c = true -> is_integer (repeat_char c (S n)).
Proof.
  intros H. split; [|discriminate].
  generalize (S n). intros m.
  induction m as [|m IH]; [reflexivity|].
  cbn [repeat_char all_digits]. now rewrite H, IH.
Qed.

Lemma oversized_version_is_an_error_witness :
  run_script [script_name; "model.ckpt"] (sample_world (Ok ckpt_hparams_oversized)) =
  {| out := ""; err := "ERROR: " ++ newline; status := 1 |}.
Proof.
  assert (Ha : is_integer (repeat_char "0" 4301)).
  { exact (repeat_digit_is_integer "0" 4300 eq_refl). }
  assert (Hb : is_integer "0") by (split; [reflexivity | discriminate]).
  assert (L : ~ (within_limit (repeat_char "0" 4301) /\ within_limit "0")).
  { intros [H _]. unfold within_limit in H. rewrite repeat_char_length in H.
    unfold int_max_str_digits in H. lia. }
  exact (oversized_version_is_an_error
           [script_name; "model.ckpt"] (sample_world (Ok ckpt_hparams_oversized))
           (repeat_char "0" 4301) "0" "0" (Some checkpoint) eq_refl Ha Hb L).
Defined.

(** Whatever ends [main] early has printed nothing to stdout: an exception
    leaves it with stdout untouched, and so does [sys.exit], whose code is
    always 1.  A normal return has added the three lines and the bare
    major.minor to stdout and returns that major.minor, the parse of the
    version that was resolved. *)
Theorem main_ends_early_before_printing
        (argv : list string) (w : world) (c : console) :
  match main argv w c with
  | (Raised e, c') => stdout c' = stdout c
  | (Exited code, c') => code = 1%Z /\ stdout c' = stdout c
  | (Returned mm, c') =>
      exists s t,
        resolve_version argv w = Ok (PyStr s, Some t) /\
        parse_pytorch_version (PyStr s) = Ok (PyStr mm) /\
        stdout c' = stdout c ++ success_output s mm t
  end.
Proof.
  unfold main. unfold io_bind at 1. unfold lift at 1.
  destruct (resolve_version argv w) as [[v src]|e] eqn:R; [|reflexivity].
  destruct (resolve_version_source_bound _ _ _ _ R) as [t ->].
  destruct (truthy v) eqn:Tv; cbn [negb]; [|now split].
  unfold io_bind at 1. unfold lift at 1.
  destruct (parse_pytorch_version v) as [parsed|e] eqn:P; [|reflexivity].
  destruct (parse_ok_shape _ _ P) as [-> | (s & mm & -> & ->)]; [now split|].
  destruct (parse_ok_truthy _ _ P) as [_ ->]. cbn [negb].
  unfold io_bind, print_out, write_out, read_source, io_ret.
  cbn [stdout stderr py_str].
  exists s, t. split; [reflexivity | split; [exact P|]].
  unfold success_output. rewrite !app_assoc_str. reflexivity.
Qed.

(** ** What the inspection of a loaded artifact returns *)

Lemma callback_silent_skip (callback : pyval) (rest : list pyval) :
  callback_silent callback = true ->
  scan_callbacks (callback :: rest) = scan_callbacks rest.
Proof.
  intros H. apply scan_callbacks_skip.
  destruct callback; try (now left). right. exists d. split; [reflexivity|].
  unfold callback_silent, dict_has in H.
  now destruct (dict_lookup "torch_version" d).
Qed.

Lemma scan_callbacks_app (pre rest : list pyval) :
  forallb callback_silent pre = true ->
  scan_callbacks (pre ++ rest) = scan_callbacks rest.
Proof.
  induction pre as [|cb pre IH]; [reflexivity|].
  cbn [forallb]. intros H. apply andb_true_iff in H. destruct H as [Hc Hp].
  rewrite <- List.app_comm_cons, callback_silent_skip by assumption. now apply IH.
Qed.

Lemma scan_callbacks_silent (callbacks : list pyval) :
  forallb callback_silent callbacks = true -> scan_callbacks callbacks = Ok None.
Proof.
  intros H. rewrite <- (List.app_nil_r callbacks). now rewrite scan_callbacks_app.
Qed.

(** On a loaded dictionary whose entries are well shaped, a version under
    [hyper_parameters] is returned whatever [metadata] and [callbacks] hold,
    and a version under [metadata] is returned whatever [callbacks] holds;
    the position of the three keys in the dictionary plays no part. *)
Theorem embedded_version_priority
        (w : world) (t : torch_module) (p : string) (d : list (pyval * pyval)) :
  torch w = Some t -> path_exists w p = Ok true -> torch_load t p = Ok (PyDict d) ->
  (forall h v,
      dict_lookup "hyper_parameters" d = Some (PyDict h) ->
      dict_lookup "torch_version" h = Some v ->
      get_torch_version_from_checkpoint w p = Ok v) /\
  (forall m v,
      hyper_parameters_silent d ->
      dict_lookup "metadata" d = Some (PyDict m) ->
      dict_lookup "torch_version" m = Some v ->
      get_torch_version_from_checkpoint w p = Ok v).
Proof.
  intros Ht He Hl. split.
  - intros h v. now apply (hyper_parameters_first w t p d).
  - intros m v. now apply (metadata_second w t p d).
Qed.

Lemma embedded_version_priority_witness :
  get_torch_version_from_checkpoint
    (sample_world (Ok (PyDict ckpt_all_places))) "model.ckpt" = Ok (PyStr "2.8.0") /\
  get_torch_version_from_checkpoint
    (sample_world (Ok (PyDict ckpt_metadata_and_callbacks))) "model.ckpt" =
    Ok (PyStr "2.7.1").
Proof.
  split.
  - exact (proj1 (embedded_version_priority
                    (sample_world (Ok (PyDict ckpt_all_places)))
                    {| torch_version := "2.8.0+cu128";
                       torch_load := fun _ => Ok (PyDict ckpt_all_places) |}
                    "model.ckpt" ckpt_all_places eq_refl eq_refl eq_refl)
                 [(PyStr "torch_version", PyStr "2.8.0")] (PyStr "2.8.0")
                 eq_refl eq_refl).
  - exact (proj2 (embedded_version_priority
                    (sample_world (Ok (PyDict ckpt_metadata_and_callbacks)))
                    {| torch_version := "2.8.0+cu128";
                       torch_load := fun _ => Ok (PyDict ckpt_metadata_and_callbacks) |}
                    "model.ckpt" ckpt_metadata_and_callbacks eq_refl eq_refl eq_refl)
                 [(PyStr "torch_version", PyStr "2.7.1")] (PyStr "2.7.1")
                 (or_intror (ex_intro _ [(PyStr "lr", PyObj)] (conj eq_refl eq_refl)))
                 eq_refl eq_refl).
Defined.

(** With nothing under [hyper_parameters] and [metadata], the [callbacks]
    mapping is walked in insertion order: entries that are no mapping or
    have no [torch_version] are passed over, the first entry that has one
    gives the result, and when there is none the runtime's own version is
    returned. *)
Theorem first_callback_with_version_wins
        (w : world) (t : torch_module) (p : string)
        (d cbs : list (pyval * pyval)) :
  torch w = Some t -> path_exists w p = Ok true -> torch_load t p = Ok (PyDict d) ->
  hyper_parameters_silent d -> metadata_silent d ->
  dict_lookup "callbacks" d = Some (PyDict cbs) ->
  (forall pre c post v,
      map snd cbs = (pre ++ PyDict c :: post)%list ->
      forallb callback_silent pre = true ->
      dict_lookup "torch_version" c = Some v ->
      get_torch_version_from_checkpoint w p = Ok v) /\
  (forallb callback_silent (map snd cbs) = true ->
   get_torch_version_from_checkpoint w p = Ok (PyStr (torch_version t))).
Proof.
  intros Ht He Hl Hh Hm Hc.
  assert (E : get_torch_version_from_checkpoint w p =
              Ok match scan_callbacks (map snd cbs) with
                 | Ok (Some v) => v
                 | Ok None => PyStr (torch_version t)
                 | Raise _ => PyNone
                 end).
  { rewrite (loaded_inspection w t p d Ht He Hl). unfold or_else.
    rewrite (check_hyper_parameters_silent d Hh). cbn [res_bind].
    rewrite (check_metadata_silent d Hm). cbn [res_bind].
    unfold check_callbacks, py_contains, dict_has, dict_get_default.
    rewrite Hc. cbn [res_bind py_values].
    destruct (scan_callbacks (map snd cbs)) as [[v|]|e]; reflexivity. }
  split.
  - intros pre c post v Hs Hp Hv. rewrite E, Hs.
    rewrite scan_callbacks_app by assumption.
    now rewrite (scan_callbacks_hit c v post Hv).
  - intros Hs. rewrite E. now rewrite scan_callbacks_silent.
Qed.

Lemma first_callback_with_version_wins_witness :
  get_torch_version_from_checkpoint
    (sample_world (Ok (PyDict ckpt_callbacks_only))) "model.ckpt" =
  Ok (PyStr "1.13.1").
Proof.
  exact (proj1 (first_callback_with_version_wins
                  (sample_world (Ok (PyDict ckpt_callbacks_only)))
                  {| torch_version := "2.8.0+cu128";
                     torch_load := fun _ => Ok (PyDict ckpt_callbacks_only) |}
                  "model.ckpt" ckpt_callbacks_only
                  [(PyStr "EarlyStopping", PyDict [(PyStr "patience", PyInt 3)]);
                   (PyStr "Timer", PyNone);
                   (PyStr "ModelCheckpoint", torch_version_entry (PyStr "1.13.1"));
                   (PyStr "Other", torch_version_entry (PyStr "2.0.0"))]
                  eq_refl eq_refl eq_refl
                  (or_introl eq_refl) (or_introl eq_refl) eq_refl)
               [PyDict [(PyStr "patience", PyInt 3)]; PyNone]
               [(PyStr "torch_version", PyStr "1.13.1")]
               [torch_version_entry (PyStr "2.0.0")]
               (PyStr "1.13.1") eq_refl eq_refl eq_refl).
Defined.

(** An artifact that loads as anything but a dictionary (a tensor, a list,
    [None]) is not looked into: the runtime's version stands in, and the
    run tags it [checkpoint]. *)
Theorem non_dict_artifact_is_proxied
        (w : world) (t : torch_module) (p prog mm : string) (ckpt : pyval) :
  torch w = Some t -> p <> "" -> path_exists w p = Ok true ->
  torch_load t p = Ok ckpt -> isinstance_dict ckpt = false ->
  parse_pytorch_version (PyStr (torch_version t)) = Ok (PyStr mm) ->
  get_torch_version_from_checkpoint w p = Ok (PyStr (torch_version t)) /\
  run_script [prog; p] w =
  {| out := success_output (torch_version t) mm checkpoint; err := ""; status := 0 |}.
Proof.
  intros Ht Hp He Hl Hd Hmm.
  assert (G : get_torch_version_from_checkpoint w p = Ok (PyStr (torch_version t))).
  { unfold get_torch_version_from_checkpoint, inspect_checkpoint, import_torch.
    rewrite He, Ht. cbn [negb res_bind]. rewrite Hl. cbn [res_bind].
    now rewrite Hd. }
  split; [exact G|].
  apply run_script_success; [|assumption].
  apply resolve_version_kept with (src := Some checkpoint).
  - now apply checkpoint_step_returned.
  - now destruct (parse_ok_truthy _ _ Hmm).
Qed.

Lemma non_dict_artifact_is_proxied_witness :
  get_torch_version_from_checkpoint (sample_world (Ok PyNone)) "model.ckpt" =
    Ok (PyStr "2.8.0+cu128") /\
  run_script [script_name; "model.ckpt"] (sample_world (Ok PyNone)) =
  {| out := success_output "2.8.0+cu128" "2.8" checkpoint; err := ""; status := 0 |}.
Proof.
  exact (non_dict_artifact_is_proxied
           (sample_world (Ok PyNone))
           {| torch_version := "2.8.0+cu128"; torch_load := fun _ => Ok PyNone |}
           "model.ckpt" script_name "2.8" PyNone
           eq_refl ltac:(discriminate) eq_refl eq_refl eq_refl eq_refl).
Defined.

Lemma check_hyper_parameters_raises (d : list (pyval * pyval)) (h : pyval) :
  dict_lookup "hyper_parameters" d = Some h -> hparams_raises h = true ->
  check_hyper_parameters (PyDict d) = Raise TypeError.
Proof.
  intros Hh Hr. unfold check_hyper_parameters, py_contains, py_getitem, dict_has.
  rewrite Hh. cbn [res_bind].
  destruct h; cbn in Hr; try discriminate; try reflexivity; now rewrite Hr.
Qed.

(** A [hyper_parameters] entry on which the membership test or the
    subscript raises ends the inspection with no result, whatever else the
    dictionary holds: the run is the one without a checkpoint argument. *)
Theorem raising_hyper_parameters_end_inspection
        (w : world) (t : torch_module) (p prog : string)
        (d : list (pyval * pyval)) (h : pyval) :
  torch w = Some t -> path_exists w p = Ok true -> torch_load t p = Ok (PyDict d) ->
  dict_lookup "hyper_parameters" d = Some h -> hparams_raises h = true ->
  get_torch_version_from_checkpoint w p = Ok PyNone /\
  run_script [prog; p] w = run_script [prog] w.
Proof.
  intros Ht He Hl Hh Hr.
  assert (G : get_torch_version_from_checkpoint w p = Ok PyNone).
  { rewrite (loaded_inspection w t p d Ht He Hl). unfold or_else.
    now rewrite (check_hyper_parameters_raises d h Hh Hr). }
  split; [exact G|].
  unfold run_script. rewrite (main_same [prog; p] [prog] w w); [reflexivity|].
  assert (S : exists src, checkpoint_step [prog; p] w = Ok (PyNone, src)).
  { unfold checkpoint_step. cbn [checkpoint_path_of length Nat.ltb Nat.leb nth_error].
    destruct (truthy (PyStr p)); [|now exists None].
    rewrite G. now exists (Some checkpoint). }
  destruct S as [src S].
  rewrite (resolve_version_fallback _ _ _ _ S eq_refl).
  now rewrite (resolve_version_fallback [prog] w PyNone None eq_refl eq_refl).
Qed.

Lemma raising_hyper_parameters_end_inspection_witness :
  get_torch_version_from_checkpoint
    (sample_world (Ok (PyDict ckpt_hparams_text))) "model.ckpt" = Ok PyNone /\
  run_script [script_name; "model.ckpt"] (sample_world (Ok (PyDict ckpt_hparams_text))) =
  run_script [script_name] (sample_world (Ok (PyDict ckpt_hparams_text))).
Proof.
  exact (raising_hyper_parameters_end_inspection
           (sample_world (Ok (PyDict ckpt_hparams_text)))
           {| torch_version := "2.8.0+cu128";
              torch_load := fun _ => Ok (PyDict ckpt_hparams_text) |}
           "model.ckpt" script_name ckpt_hparams_text
           (PyStr "torch_version: 2.8.0")
           eq_refl eq_refl eq_refl eq_refl eq_refl).
Defined.

(** A run tagged [checkpoint] has loaded the file: a non-empty path was
    given, it exists, [torch] is importable and [torch.load] returned. *)
Theorem checkpoint_tag_means_loaded (argv : list string) (w : world) (v : pyval) :
  resolve_version argv w = Ok (v, Some checkpoint) ->
  exists p t ckpt,
    checkpoint_path_of argv = Some p /\ p <> "" /\
    path_exists w p = Ok true /\ torch w = Some t /\ torch_load t p = Ok ckpt /\
    get_torch_version_from_checkpoint w p = Ok v /\ truthy v = true.
Proof.
  unfold resolve_version, checkpoint_step.
  destruct (checkpoint_path_of argv) as [p|]; [|discriminate].
  destruct (truthy (PyStr p)) eqn:Tp; [|discriminate].
  destruct (get_torch_version_from_checkpoint w p) as [v0|e] eqn:G;
    cbn [res_bind]; [|discriminate].
  destruct (truthy v0) eqn:T; cbn [negb]; [|discriminate].
  intros [= <-].
  assert (Hp : p <> "").
  { intros ->. discriminate. }
  pose proof G as G'.
  unfold get_torch_version_from_checkpoint, inspect_checkpoint, import_torch in G'.
  destruct (path_exists w p) as [[|]|e] eqn:He; cbn [negb res_bind] in G';
    [| injection G' as <-; discriminate | discriminate].
  destruct (torch w) as [t|] eqn:Ht; cbn [res_bind] in G';
    [| injection G' as <-; discriminate].
  destruct (torch_load t p) as [ckpt|e] eqn:Hl; cbn [res_bind] in G';
    [| injection G' as <-; discriminate].
  exists p, t, ckpt. repeat split; assumption.
Qed.

Lemma checkpoint_tag_means_loaded_witness :
  exists p t ckpt,
    checkpoint_path_of [script_name; "model.ckpt"] = Some p /\ p <> "" /\
    path_exists (sample_world (Ok ckpt_hparams_280)) p = Ok true /\
    torch (sample_world (Ok ckpt_hparams_280)) = Some t /\
    torch_load t p = Ok ckpt /\
    get_torch_version_from_checkpoint (sample_world (Ok ckpt_hparams_280)) p =
      Ok (PyStr "2.8.0") /\
    truthy (PyStr "2.8.0") = true.
Proof.
  exact (checkpoint_tag_means_loaded
           [script_name; "model.ckpt"] (sample_world (Ok ckpt_hparams_280))
           (PyStr "2.8.0") eq_refl).
Defined.

(** A missing runtime is fatal whenever the test of the path answers:
    [import torch] sits inside the [try] of the checkpoint step, so no
    checkpoint is read without it, and the run ends unresolved with
    status 1, even for a file that exists and embeds its version. *)
Theorem missing_runtime_is_fatal (argv : list string) (w : world) :
  torch w = None ->
  (forall p, checkpoint_path_of argv = Some p -> p <> "" ->
             exists found, path_exists w p = Ok found) ->
  run_script argv w = {| out := ""; err := unresolved_message; status := 1 |}.
Proof.
  intros H Hp.
  destruct (checkpoint_step argv w) as [[v src]|e] eqn:S.
  - apply run_script_unresolved with (v := PyNone) (src := Some environment);
      [|reflexivity].
    rewrite (checkpoint_step_needs_torch _ _ _ _ H S) in S.
    rewrite (resolve_version_fallback _ _ _ _ S eq_refl).
    now rewrite (get_torch_version_from_env_missing w H).
  - destruct (checkpoint_step_raises_inv _ _ _ S) as (p & Hc & Hn & He).
    destruct (Hp p Hc Hn) as [found Hf]. congruence.
Qed.

Lemma missing_runtime_is_fatal_witness :
  path_exists bare_world "model.ckpt" = Ok true /\
  run_script [script_name; "model.ckpt"] bare_world =
  {| out := ""; err := unresolved_message; status := 1 |}.
Proof.
  split; [reflexivity|].
  exact (missing_runtime_is_fatal [script_name; "model.ckpt"] bare_world eq_refl
           (fun p _ _ => ex_intro _ (String.eqb p "model.ckpt") eq_refl)).
Defined.

(** ** What a successful run prints *)

(** A version embedded under [hyper_parameters] that the parser accepts is
    what the run reports, raw and parsed, tagged [checkpoint]; the version
    of the runtime that loaded the file does not show. *)
Theorem embedded_version_is_reported
        (w : world) (t : torch_module) (p prog s mm : string)
        (d h : list (pyval * pyval)) :
  torch w = Some t -> p <> "" -> path_exists w p = Ok true ->
  torch_load t p = Ok (PyDict d) ->
  dict_lookup "hyper_parameters" d = Some (PyDict h) ->
  dict_lookup "torch_version" h = Some (PyStr s) ->
  parse_pytorch_version (PyStr s) = Ok (PyStr mm) ->
  run_script [prog; p] w =
  {| out := success_output s mm checkpoint; err := ""; status := 0 |}.
Proof.
  intros Ht Hp He Hl Hh Hv Hmm.
  apply run_script_success; [|assumption].
  apply resolve_version_kept with (src := Some checkpoint).
  - apply checkpoint_step_returned; [assumption|].
    exact (hyper_parameters_first w t p d Ht He Hl h (PyStr s) Hh Hv).
  - now destruct (parse_ok_truthy _ _ Hmm).
Qed.

Lemma embedded_version_is_reported_witness :
  run_script [script_name; "model.ckpt"] (sample_world (Ok (PyDict ckpt_all_places))) =
  {| out := success_output "2.8.0" "2.8" checkpoint; err := ""; status := 0 |}.
Proof.
  exact (embedded_version_is_reported
           (sample_world (Ok (PyDict ckpt_all_places)))
           {| torch_version := "2.8.0+cu128";
              torch_load := fun _ => Ok (PyDict ckpt_all_places) |}
           "model.ckpt" script_name "2.8.0" "2.8" ckpt_all_places
           [(PyStr "torch_version", PyStr "2.8.0")]
           eq_refl ltac:(discriminate) eq_refl eq_refl eq_refl eq_refl eq_refl).
Defined.

Lemma successful_run_inv (argv : list string) (w : world) :
  status (run_script argv w) = 0%Z ->
  exists s mm t,
    resolve_version argv w = Ok (PyStr s, Some t) /\
    parse_pytorch_version (PyStr s) = Ok (PyStr mm) /\
    run_script argv w = {| out := success_output s mm t; err := ""; status := 0 |}.
Proof.
  destruct (resolve_version argv w) as [[v src]|e] eqn:R.
  - destruct (resolve_version_source_bound _ _ _ _ R) as [t ->].
    destruct (truthy v) eqn:Tv.
    + destruct (parse_pytorch_version v) as [parsed|e] eqn:P.
      * destruct (parse_ok_shape _ _ P) as [-> | (s & mm & -> & ->)].
        -- rewrite (run_script_unparseable _ _ _ _ R Tv P). discriminate.
        -- intros _. exists s, mm, t.
           split; [reflexivity | split; [exact P|]].
           now apply run_script_success.
      * rewrite (run_script_raises _ _ _ _ _ R Tv P). discriminate.
    + rewrite (run_script_unresolved _ _ _ _ R Tv). discriminate.
  - rewrite (run_script_resolve_raises _ _ _ R). discriminate.
Qed.

(** The run succeeds exactly when a version was resolved that is a string
    with a version prefix whose two integers [int] accepts. *)
Theorem success_iff_version_prefix (argv : list string) (w : world) :
  status (run_script argv w) = 0%Z <->
  exists s src,
    resolve_version argv w = Ok (PyStr s, src) /\ has_short_version_prefix s.
Proof.
  split.
  - intros H. destruct (successful_run_inv argv w H) as (s & mm & t & R & P & _).
    exists s, (Some t). split; [exact R|].
    destruct (parse_ok_inv _ _ P) as (s' & g1 & g2 & E & M & L1 & L2 & _).
    injection E as <-.
    rewrite re_match_version_scan in M. apply scan_version_inv in M.
    destruct M as (Ha & Hb & rest & ->). now exists g1, g2, rest.
  - intros (s & src & R & (a & b & rest & Ha & Hb & La & Lb & ->)).
    destruct (resolve_version_source_bound _ _ _ _ R) as [t ->].
    now rewrite (run_script_success _ _ _ _ _ R
                   (parse_version_prefix a b rest Ha Hb La Lb)).
Qed.

Lemma success_iff_version_prefix_witness :
  status (run_script [script_name; "model.ckpt"]
                     (sample_world (Ok ckpt_hparams_280))) = 0%Z.
Proof.
  apply (proj2 (success_iff_version_prefix
                  [script_name; "model.ckpt"] (sample_world (Ok ckpt_hparams_280)))).
  exists "2.8.0", (Some checkpoint). split; [reflexivity|].
  exists "2", "8", "0".
  split; [split; [reflexivity | discriminate]|].
  split; [split; [reflexivity | discriminate]|].
  split; [unfold within_limit, int_max_str_digits; cbn; lia|].
  split; [unfold within_limit, int_max_str_digits; cbn; lia | reflexivity].
Defined.

Lemma last_line_from_break (x y acc : string) :
  last_line_from acc (x ++ newline ++ y) = last_line y.
Proof.
  revert acc. induction x as [|c x IH]; intros acc; [reflexivity|].
  cbn [append last_line_from].
  destruct (Ascii.eqb c (ascii_of_nat 10)); apply IH.
Qed.

Lemma last_line_from_no_break (s acc : string) :
  no_break s = true -> last_line_from acc s = acc ++ s.
Proof.
  revert acc. induction s as [|c s IH]; intros acc H.
  - cbn. now rewrite app_empty_r.
  - cbn [no_break] in H. apply andb_true_iff in H. destruct H as [Hc Hs].
    apply negb_true_iff in Hc. cbn [last_line_from]. rewrite Hc, (IH _ Hs).
    apply snoc_app.
Qed.

Lemma last_line_major_minor (x y : N) :
  last_line (format_major_minor x y) = format_major_minor x y.
Proof.
  unfold last_line. now rewrite last_line_from_no_break
    by apply format_major_minor_no_break.
Qed.

(** The last line of a successful run's stdout is the parsed major.minor,
    with no line break after it, whatever the raw version looks like: a
    caller that keeps the last line gets exactly the parsed version. *)
Theorem last_line_is_major_minor (argv : list string) (w : world) :
  status (run_script argv w) = 0%Z ->
  exists s src,
    resolve_version argv w = Ok (PyStr s, src) /\
    parse_pytorch_version (PyStr s) =
    Ok (PyStr (last_line (out (run_script argv w)))).
Proof.
  intros H. destruct (successful_run_inv argv w H) as (s & mm & t & R & P & ->).
  exists s, (Some t). split; [exact R|]. cbn [out].
  destruct (parse_ok_inv _ _ P) as (s' & g1 & g2 & _ & _ & _ & _ & Emm).
  unfold success_output.
  replace ("PYTORCH_VERSION=" ++ s ++ newline ++
           "PYTORCH_MAJOR_MINOR=" ++ mm ++ newline ++
           "SOURCE=" ++ tag_str t ++ newline ++ mm)
    with (("PYTORCH_VERSION=" ++ s ++ newline ++
           "PYTORCH_MAJOR_MINOR=" ++ mm ++ newline ++
           "SOURCE=" ++ tag_str t) ++ newline ++ mm)
    by (rewrite !app_assoc_str; reflexivity).
  unfold last_line at 1. rewrite last_line_from_break.
  rewrite Emm at 1. rewrite last_line_major_minor. now rewrite <- Emm.
Qed.

Lemma last_line_is_major_minor_witness :
  exists s src,
    resolve_version [script_name; "model.ckpt"]
                    (sample_world (Ok ckpt_hparams_280)) = Ok (PyStr s, src) /\
    parse_pytorch_version (PyStr s) =
    Ok (PyStr (last_line (out (run_script [script_name; "model.ckpt"]
                                          (sample_world (Ok ckpt_hparams_280)))))).
Proof.
  exact (last_line_is_major_minor
           [script_name; "model.ckpt"] (sample_world (Ok ckpt_hparams_280)) eq_refl).
Defined.
